(** * ACL Rehab Tracker: the dashboard client (frontend/src/App.jsx and
    frontend/src/components/MuscleActivationBar.jsx)

    A shallow embedding of the React component [App]: its state, its
    WebSocket handlers, its control handlers and the values it derives for
    display, followed by the properties of the telemetry specification
    that are decided by this code.

    Conventions.
    - A JavaScript number is an IEEE double; here it is an exact rational
      ([Q]).  Values that are only stored and passed on are compared with
      Leibniz equality, computed values with [==].
    - A property that may be absent, [undefined] or [null] is an [option];
      [x ?? d] is [nullish x d].
    - An [async] handler is run to completion on the state it was started
      in: no other event is interleaved between its [await]s.  The reply of
      each [fetch] is an input of the handler. *)

From Stdlib Require Import List ZArith QArith Qminmax Ascii String Bool Lia Lqa.
Import ListNotations.
Open Scope Q_scope.

(** ** JavaScript helpers *)

(** [x ?? d] *)
Definition nullish {A : Type} (x : option A) (d : A) : A :=
  match x with
  | Some v => v
  | None => d
  end.

Notation "x ?? d" := (nullish x d) (at level 45, left associativity).

(** [a || b] on values that are either an object or absent, and [a ?? b]
    where [b] itself may be null. *)
Definition or_else {A : Type} (a b : option A) : option A :=
  match a with
  | Some _ => a
  | None => b
  end.

(** [xs.slice(-n)]: the start index is [max (length - n) 0]. *)
Definition slice_last {A : Type} (n : nat) (xs : list A) : list A :=
  skipn (List.length xs - n) xs.

Definition Math_max2 (x y : Q) : Q := if Qle_bool x y then y else x.
Definition Math_min2 (x y : Q) : Q := if Qle_bool x y then x else y.

(** The value of [Math.max(...xs)]: [-Infinity] for no argument. *)
Inductive MaxResult : Type :=
| NegInfinity
| Finite (q : Q).

Definition max_step (acc : MaxResult) (x : Q) : MaxResult :=
  match acc with
  | NegInfinity => Finite x
  | Finite m => Finite (Math_max2 m x)
  end.

Definition Math_max (xs : list Q) : MaxResult :=
  fold_left max_step xs NegInfinity.

(** ** The message schema *)

(** The keys of [segments = ['thigh', 'shin']]. *)
Inductive Segment : Type := Thigh | Shin.

(** One segment of [newData.imu]: [{ pitch, roll }], each possibly missing. *)
Record Reading : Type := {
  in_pitch : option Q;
  in_roll : option Q
}.

Record ImuPayload : Type := {
  p_thigh : option Reading;
  p_shin : option Reading
}.

(** [imuPayload?.[segment]] *)
Definition payload_get (p : ImuPayload) (segment : Segment) : option Reading :=
  match segment with
  | Thigh => p_thigh p
  | Shin => p_shin p
  end.

(** The literal [{}]. *)
Definition empty_payload : ImuPayload := {| p_thigh := None; p_shin := None |}.

(** One parsed message.  [muscle_rest_voltage] distinguishes a missing
    property ([None]) from a property that is present and null
    ([Some None]), as [hasOwnProperty] does. *)
Record Metrics : Type := {
  flexion_angle : option Q;
  extension_angle : option Q;
  muscle_voltage : option Q;
  muscle_relative : option Q;
  torque : option Q;
  max_flexion : option Q;
  max_extension : option Q;
  max_torque : option Q;
  imu : option ImuPayload;
  raw_imu : option ImuPayload;
  muscle_rest_voltage : option (option Q);
  muscle_peak_voltage : option Q;
  timestamp : option Q
}.

(** The body of a reply to [POST /muscle/calibrate]. *)
Record CalibrationReply : Type := {
  rest_voltage : option Q;
  peak_voltage : option Q
}.

(** ** The component state *)

Record Orientation : Type := {
  pitch : Q;
  roll : Q
}.

(** [smoothImu].  Every writer of this state (the initial value,
    [calibrateImu] and the message handler) stores both segments with
    numeric fields, so the fallbacks [prev || createNeutralImu()] and
    [previous[segment] || { pitch: 0, roll: 0 }] are never taken and the
    type has no absent case. *)
Record Imu : Type := {
  thigh : Orientation;
  shin : Orientation
}.

Definition imu_get (i : Imu) (segment : Segment) : Orientation :=
  match segment with
  | Thigh => thigh i
  | Shin => shin i
  end.

Definition createNeutralImu : Imu :=
  {| thigh := {| pitch := 0; roll := 0 |};
     shin := {| pitch := 0; roll := 0 |} |}.

Record MuscleRange : Type := {
  rest : option Q;
  peak : option Q
}.

(** [calibrationStep]: the strings "ready", "rest", "peak" and "done". *)
Inductive CalibrationStep : Type := Ready | Rest | Peak | Done.

Record ModalState : Type := {
  type : option string;
  open : bool
}.

(** What a pending [setTimeout] will run. *)
Inductive Callback : Type :=
| cb_connectWebSocket
| cb_clearToast.

Record Timer : Type := {
  timer_id : nat;
  delay : Z;
  callback : Callback
}.

(** The React state of [App], its two refs, and the part of the browser
    the handlers act on: the number of sockets constructed so far and the
    pending timers. *)
Record App : Type := {
  data : option Metrics;
  isConnected : bool;
  difficulty : Z;
  history : list Metrics;
  smoothImu : Imu;
  isCalibrating : bool;
  toastMessage : option string;
  muscleRange : MuscleRange;
  calibrationStep : CalibrationStep;
  modalState : ModalState;
  wsRef : option nat;
  toastTimeoutRef : option nat;
  sockets : nat;
  timers : list Timer;
  next_timer : nat
}.

Definition maxHistoryLength : nat := 100.
Definition smoothingAlpha : Q := 0.8.
Definition reconnectDelay : Z := 3000.
Definition toastDelay : Z := 3000.

Definition initial : App :=
  {| data := None;
     isConnected := false;
     difficulty := 1%Z;
     history := [];
     smoothImu := createNeutralImu;
     isCalibrating := false;
     toastMessage := None;
     muscleRange := {| rest := None; peak := None |};
     calibrationStep := Ready;
     modalState := {| type := None; open := false |};
     wsRef := None;
     toastTimeoutRef := None;
     sockets := 0;
     timers := [];
     next_timer := 1 |}.

(** *** State setters *)

Definition setData (v : option Metrics) (s : App) : App :=
  {| data := v; isConnected := isConnected s; difficulty := difficulty s;
     history := history s; smoothImu := smoothImu s;
     isCalibrating := isCalibrating s; toastMessage := toastMessage s;
     muscleRange := muscleRange s; calibrationStep := calibrationStep s;
     modalState := modalState s; wsRef := wsRef s;
     toastTimeoutRef := toastTimeoutRef s; sockets := sockets s;
     timers := timers s; next_timer := next_timer s |}.

Definition setIsConnected (v : bool) (s : App) : App :=
  {| data := data s; isConnected := v; difficulty := difficulty s;
     history := history s; smoothImu := smoothImu s;
     isCalibrating := isCalibrating s; toastMessage := toastMessage s;
     muscleRange := muscleRange s; calibrationStep := calibrationStep s;
     modalState := modalState s; wsRef := wsRef s;
     toastTimeoutRef := toastTimeoutRef s; sockets := sockets s;
     timers := timers s; next_timer := next_timer s |}.

Definition setDifficulty (v : Z) (s : App) : App :=
  {| data := data s; isConnected := isConnected s; difficulty := v;
     history := history s; smoothImu := smoothImu s;
     isCalibrating := isCalibrating s; toastMessage := toastMessage s;
     muscleRange := muscleRange s; calibrationStep := calibrationStep s;
     modalState := modalState s; wsRef := wsRef s;
     toastTimeoutRef := toastTimeoutRef s; sockets := sockets s;
     timers := timers s; next_timer := next_timer s |}.

Definition setHistory (v : list Metrics) (s : App) : App :=
  {| data := data s; isConnected := isConnected s; difficulty := difficulty s;
     history := v; smoothImu := smoothImu s;
     isCalibrating := isCalibrating s; toastMessage := toastMessage s;
     muscleRange := muscleRange s; calibrationStep := calibrationStep s;
     modalState := modalState s; wsRef := wsRef s;
     toastTimeoutRef := toastTimeoutRef s; sockets := sockets s;
     timers := timers s; next_timer := next_timer s |}.

Definition setSmoothImu (v : Imu) (s : App) : App :=
  {| data := data s; isConnected := isConnected s; difficulty := difficulty s;
     history := history s; smoothImu := v;
     isCalibrating := isCalibrating s; toastMessage := toastMessage s;
     muscleRange := muscleRange s; calibrationStep := calibrationStep s;
     modalState := modalState s; wsRef := wsRef s;
     toastTimeoutRef := toastTimeoutRef s; sockets := sockets s;
     timers := timers s; next_timer := next_timer s |}.

Definition setIsCalibrating (v : bool) (s : App) : App :=
  {| data := data s; isConnected := isConnected s; difficulty := difficulty s;
     history := history s; smoothImu := smoothImu s;
     isCalibrating := v; toastMessage := toastMessage s;
     muscleRange := muscleRange s; calibrationStep := calibrationStep s;
     modalState := modalState s; wsRef := wsRef s;
     toastTimeoutRef := toastTimeoutRef s; sockets := sockets s;
     timers := timers s; next_timer := next_timer s |}.

Definition setToastMessage (v : option string) (s : App) : App :=
  {| data := data s; isConnected := isConnected s; difficulty := difficulty s;
     history := history s; smoothImu := smoothImu s;
     isCalibrating := isCalibrating s; toastMessage := v;
     muscleRange := muscleRange s; calibrationStep := calibrationStep s;
     modalState := modalState s; wsRef := wsRef s;
     toastTimeoutRef := toastTimeoutRef s; sockets := sockets s;
     timers := timers s; next_timer := next_timer s |}.

Definition setMuscleRange (v : MuscleRange) (s : App) : App :=
  {| data := data s; isConnected := isConnected s; difficulty := difficulty s;
     history := history s; smoothImu := smoothImu s;
     isCalibrating := isCalibrating s; toastMessage := toastMessage s;
     muscleRange := v; calibrationStep := calibrationStep s;
     modalState := modalState s; wsRef := wsRef s;
     toastTimeoutRef := toastTimeoutRef s; sockets := sockets s;
     timers := timers s; next_timer := next_timer s |}.

Definition setCalibrationStep (v : CalibrationStep) (s : App) : App :=
  {| data := data s; isConnected := isConnected s; difficulty := difficulty s;
     history := history s; smoothImu := smoothImu s;
     isCalibrating := isCalibrating s; toastMessage := toastMessage s;
     muscleRange := muscleRange s; calibrationStep := v;
     modalState := modalState s; wsRef := wsRef s;
     toastTimeoutRef := toastTimeoutRef s; sockets := sockets s;
     timers := timers s; next_timer := next_timer s |}.

Definition setModalState (v : ModalState) (s : App) : App :=
  {| data := data s; isConnected := isConnected s; difficulty := difficulty s;
     history := history s; smoothImu := smoothImu s;
     isCalibrating := isCalibrating s; toastMessage := toastMessage s;
     muscleRange := muscleRange s; calibrationStep := calibrationStep s;
     modalState := v; wsRef := wsRef s;
     toastTimeoutRef := toastTimeoutRef s; sockets := sockets s;
     timers := timers s; next_timer := next_timer s |}.

Definition set_wsRef (v : option nat) (s : App) : App :=
  {| data := data s; isConnected := isConnected s; difficulty := difficulty s;
     history := history s; smoothImu := smoothImu s;
     isCalibrating := isCalibrating s; toastMessage := toastMessage s;
     muscleRange := muscleRange s; calibrationStep := calibrationStep s;
     modalState := modalState s; wsRef := v;
     toastTimeoutRef := toastTimeoutRef s; sockets := sockets s;
     timers := timers s; next_timer := next_timer s |}.

Definition set_toastTimeoutRef (v : option nat) (s : App) : App :=
  {| data := data s; isConnected := isConnected s; difficulty := difficulty s;
     history := history s; smoothImu := smoothImu s;
     isCalibrating := isCalibrating s; toastMessage := toastMessage s;
     muscleRange := muscleRange s; calibrationStep := calibrationStep s;
     modalState := modalState s; wsRef := wsRef s;
     toastTimeoutRef := v; sockets := sockets s;
     timers := timers s; next_timer := next_timer s |}.

Definition set_sockets (v : nat) (s : App) : App :=
  {| data := data s; isConnected := isConnected s; difficulty := difficulty s;
     history := history s; smoothImu := smoothImu s;
     isCalibrating := isCalibrating s; toastMessage := toastMessage s;
     muscleRange := muscleRange s; calibrationStep := calibrationStep s;
     modalState := modalState s; wsRef := wsRef s;
     toastTimeoutRef := toastTimeoutRef s; sockets := v;
     timers := timers s; next_timer := next_timer s |}.

Definition set_timers (v : list Timer) (n : nat) (s : App) : App :=
  {| data := data s; isConnected := isConnected s; difficulty := difficulty s;
     history := history s; smoothImu := smoothImu s;
     isCalibrating := isCalibrating s; toastMessage := toastMessage s;
     muscleRange := muscleRange s; calibrationStep := calibrationStep s;
     modalState := modalState s; wsRef := wsRef s;
     toastTimeoutRef := toastTimeoutRef s; sockets := sockets s;
     timers := v; next_timer := n |}.

(** ** Asynchronous handlers

    An [async] function body acts on the component state and either
    completes with a value or throws; what it wrote before throwing stays
    written. *)

Definition Async (A : Type) : Type := App -> App * option A.

Definition ret {A : Type} (a : A) : Async A := fun s => (s, Some a).

Definition throw {A : Type} : Async A := fun s => (s, None).

Definition bind {A B : Type} (m : Async A) (k : A -> Async B) : Async B :=
  fun s =>
    match m s with
    | (s', Some a) => k a s'
    | (s', None) => (s', None)
    end.

Definition modify (f : App -> App) : Async unit := fun s => (f s, Some tt).

Definition get : Async App := fun s => (s, Some s).

Notation "x <- m ;; k" := (bind m (fun x => k))
  (at level 61, m at next level, right associativity).
Notation "m ;; k" := (bind m (fun _ => k))
  (at level 61, right associativity).

(** [try { body } catch (error) { console.error(...) }] *)
Definition try_catch (body : Async unit) (s : App) : App := fst (body s).

(** The outcome of [await fetch(...)]: the promise rejects (no
    connection), or resolves to a response with its [ok] flag and the
    value of [response.json()] when the body parses to an object. *)
Inductive Reply (A : Type) : Type :=
| Rejected
| Response (ok : bool) (json : option A).

Arguments Rejected {A}.
Arguments Response {A} ok json.

Definition fetch {A : Type} (r : Reply A) : Async (bool * option A) :=
  match r with
  | Rejected => throw
  | Response ok body => ret (ok, body)
  end.

(** [await response.json()] *)
Definition json_of {A : Type} (response : bool * option A) : Async A :=
  match snd response with
  | Some body => ret body
  | None => throw
  end.

(** A request fails for its caller when the promise rejects, when the
    response is not [ok] (the caller throws), or when its body does not
    parse. *)
Definition reply_fails {A : Type} (r : Reply A) : bool :=
  match r with
  | Rejected => true
  | Response false _ => true
  | Response true None => true
  | Response true (Some _) => false
  end.

(** The [mode] query parameter of [/muscle/calibrate]: "rest" or "max". *)
Inductive Mode : Type := mode_rest | mode_max.

(** The backend as the client sees it: the reply to each request. *)
Record Backend : Type := {
  reset_reply : Reply unit;
  imu_calibrate_reply : Reply unit;
  muscle_calibrate_reply : Mode -> Reply CalibrationReply
}.

(** ** Timers *)

Definition setTimeout (cb : Callback) (ms : Z) (s : App) : App :=
  set_timers
    (timers s ++ [{| timer_id := next_timer s; delay := ms; callback := cb |}])
    (S (next_timer s)) s.

Definition clearTimeout (id : nat) (s : App) : App :=
  set_timers (filter (fun t => negb (Nat.eqb (timer_id t) id)) (timers s))
    (next_timer s) s.

(** ** WebSocket handlers *)

Definition connectWebSocket (s : App) : App :=
  let ws := S (sockets s) in
  set_wsRef (Some ws) (set_sockets ws s).

Definition onopen (s : App) : App := setIsConnected true s.

(** The body of the [segments.forEach] callback. *)
Definition smoothSegment (prevSegment : Orientation) (incoming : option Reading)
  : Orientation :=
  match incoming with
  | None => prevSegment
  | Some inc =>
      let newPitch := in_pitch inc ?? pitch prevSegment in
      let newRoll := in_roll inc ?? roll prevSegment in
      {| pitch := smoothingAlpha * pitch prevSegment
                  + (1 - smoothingAlpha) * newPitch;
         roll := smoothingAlpha * roll prevSegment
                 + (1 - smoothingAlpha) * newRoll |}
  end.

(** The updater passed to [setSmoothImu]: the loop over the two segments
    fills both keys of [updated]. *)
Definition smooth (imuPayload : ImuPayload) (previous : Imu) : Imu :=
  {| thigh := smoothSegment (thigh previous) (payload_get imuPayload Thigh);
     shin := smoothSegment (shin previous) (payload_get imuPayload Shin) |}.

(** [newData?.imu || newData?.raw_imu || {}] *)
Definition imuPayload_of (newData : Metrics) : ImuPayload :=
  match or_else (imu newData) (raw_imu newData) with
  | Some p => p
  | None => empty_payload
  end.

Definition onmessage (newData : Metrics) (s : App) : App :=
  let s := setData (Some newData) s in
  let s :=
    match muscle_rest_voltage newData with
    | Some r =>
        setMuscleRange {| rest := r; peak := muscle_peak_voltage newData |} s
    | None => s
    end in
  let s := setSmoothImu (smooth (imuPayload_of newData) (smoothImu s)) s in
  setHistory (slice_last maxHistoryLength (history s ++ [newData])) s.

Definition onerror (s : App) : App := setIsConnected false s.

Definition onclose (s : App) : App :=
  setTimeout cb_connectWebSocket reconnectDelay (setIsConnected false s).

(** ** Control handlers *)

Definition resetSession (b : Backend) : App -> App :=
  try_catch
    (fetch (reset_reply b) ;;
     modify (setHistory []) ;;
     modify (setMuscleRange {| rest := None; peak := None |}) ;;
     modify (setCalibrationStep Ready)).

Definition calibrateImu (b : Backend) : Async unit :=
  fetch (imu_calibrate_reply b) ;;
  modify (setSmoothImu createNeutralImu).

Definition calibrateMuscleStep (b : Backend) (mode : Mode) : Async unit :=
  response <- fetch (muscle_calibrate_reply b mode) ;;
  if negb (fst response) then throw
  else
    result <- json_of response ;;
    s <- get ;;
    modify (setMuscleRange
              {| rest := or_else (rest_voltage result) (rest (muscleRange s));
                 peak := or_else (peak_voltage result) (peak (muscleRange s)) |}).

Definition openModal (t : string) (s : App) : App :=
  setModalState {| type := Some t; open := true |} s.

Definition closeModal (s : App) : App :=
  setModalState {| type := None; open := false |} s.

Definition toastText : string :=
  "Calibration complete. Relative meter now spans your relaxed → max contraction.".

Definition clearToastTimer (s : App) : App :=
  match toastTimeoutRef s with
  | Some id => clearTimeout id s
  | None => s
  end.

Definition scheduleToastClear (s : App) : App :=
  set_toastTimeoutRef (Some (next_timer s)) (setTimeout cb_clearToast toastDelay s).

Definition handleModalConfirm (b : Backend) (s : App) : App :=
  let body : Async unit :=
    match calibrationStep s with
    | Rest =>
        calibrateMuscleStep b mode_rest ;;
        calibrateImu b ;;
        modify (setCalibrationStep Peak)
    | Peak =>
        calibrateMuscleStep b mode_max ;;
        modify clearToastTimer ;;
        modify (setToastMessage (Some toastText)) ;;
        modify scheduleToastClear ;;
        modify (setCalibrationStep Done) ;;
        modify closeModal
    | Ready | Done => ret tt
    end in
  setIsCalibrating false (try_catch body (setIsCalibrating true s)).

Definition openUnifiedModal (s : App) : App :=
  setCalibrationStep Rest (setModalState {| type := Some "unified"%string; open := true |} s).

(** The label of the button that runs [openUnifiedModal]. *)
Definition initializeLabel (s : App) : string :=
  match calibrationStep s with
  | Done => "Recalibrate"
  | _ => "Initialize Sensors"
  end.

(** ** Derived values *)

Definition relativePeak (h : list Metrics) : MaxResult :=
  match h with
  | [] => Finite 0
  | _ => Math_max (map (fun entry => muscle_relative entry ?? 0) h)
  end.

(** [data?.muscle_relative ?? 0] *)
Definition currentRelative (d : option Metrics) : Q :=
  match d with
  | Some m => muscle_relative m ?? 0
  | None => 0
  end.

(** MuscleActivationBar: [Math.min(100, Math.max(0, displayValue))]. *)
Definition barHeight (displayValue : Q) : Q :=
  Math_min2 100 (Math_max2 0 displayValue).

(** ** The event loop *)

Definition runCallback (cb : Callback) (s : App) : App :=
  match cb with
  | cb_connectWebSocket => connectWebSocket s
  | cb_clearToast => setToastMessage None s
  end.

Definition fireTimer (id : nat) (s : App) : App :=
  match find (fun t => Nat.eqb (timer_id t) id) (timers s) with
  | Some t => runCallback (callback t) (clearTimeout id s)
  | None => s
  end.

Inductive Event : Type :=
| ws_open
| ws_message (newData : Metrics)
| ws_error
| ws_close
| timer_fires (id : nat)
| click_reset (b : Backend)
| click_initialize
| click_confirm (b : Backend)
| click_cancel
| click_difficulty (level : Z).

(** The confirm and cancel buttons are rendered only while the modal is
    open with the type "unified"; the confirm button is disabled while
    [isCalibrating] is set. *)
Definition modalShown (s : App) : bool :=
  open (modalState s) &&
  match type (modalState s) with
  | Some t => String.eqb t "unified"
  | None => false
  end.

Definition handle (s : App) (e : Event) : App :=
  match e with
  | ws_open => onopen s
  | ws_message newData => onmessage newData s
  | ws_error => onerror s
  | ws_close => onclose s
  | timer_fires id => fireTimer id s
  | click_reset b => resetSession b s
  | click_initialize => openUnifiedModal s
  | click_confirm b =>
      if modalShown s && negb (isCalibrating s) then handleModalConfirm b s
      else s
  | click_cancel => if modalShown s then closeModal s else s
  | click_difficulty level => setDifficulty level s
  end.

Definition run (s : App) (es : list Event) : App := fold_left handle es s.

(** The component after mounting: the effect has called
    [connectWebSocket] once. *)
Definition mounted : App := connectWebSocket initial.

(** One round of losing the connection: the socket closes and the timer
    that the close handler scheduled fires. *)
Definition close_and_retry (s : App) : App :=
  handle (handle s ws_close) (timer_fires (next_timer s)).

(** Timer identifiers are handed out in increasing order, so every pending
    timer has an identifier below the next one. *)
Definition timers_fresh (s : App) : Prop :=
  Forall (fun t => (timer_id t < next_timer s)%nat) (timers s).

(** ** The backend's muscle calibration, as the specification gives it *)

(** Modelled from the spec: the MuscleCalibration record
    [{rest_voltage, peak_voltage}], both optional; calibrate-muscle returns
    it, so it has the shape of the reply body. *)
Definition MuscleCalibration : Type := CalibrationReply.

(** Modelled from the spec: the error of the control surface for "peak
    requested before rest". *)
Inductive ControlError : Type := CalibrationOrderError.

(** Modelled from the spec: "clamped to [lo, hi]". *)
Definition clamp (lo hi x : Q) : Q := Math_min2 hi (Math_max2 lo x).

(** Modelled from the spec: the Muscle Activation Monitor's
    relative_activation, which lives in backend/sensors/myoware.py and is
    not among the sources.  "percent = 100 (voltage - rest_voltage) /
    (peak_voltage - rest_voltage), clamped to [0, 100]; returns 0 (not an
    error) when calibration is incomplete". *)
Definition relative_activation (cal : MuscleCalibration) (voltage : Q) : Q :=
  match rest_voltage cal, peak_voltage cal with
  | Some r, Some p => clamp 0 100 (100 * (voltage - r) / (p - r))
  | _, _ => 0
  end.

(** Modelled from the spec: the control operation calibrate-muscle(mode)
    of the backend (backend/main.py, not among the sources), applied to
    the voltage sampled at the moment of the call.  "rest_voltage is set
    by the capture rest step; peak_voltage by the capture max step, which
    requires rest_voltage already set"; "mode=max fails with
    CalibrationOrderError if rest not yet captured; returns {rest_voltage,
    peak_voltage}"; a failed command leaves the state unchanged.  The
    result is the new record and what the caller receives. *)
Definition calibrate_muscle (mode : Mode) (voltage : Q) (cal : MuscleCalibration)
  : MuscleCalibration * (ControlError + CalibrationReply) :=
  match mode with
  | mode_rest =>
      let cal' := {| rest_voltage := Some voltage;
                     peak_voltage := peak_voltage cal |} in
      (cal', inr cal')
  | mode_max =>
      match rest_voltage cal with
      | None => (cal, inl CalibrationOrderError)
      | Some r =>
          let cal' := {| rest_voltage := Some r;
                         peak_voltage := Some voltage |} in
          (cal', inr cal')
      end
  end.

(** ** Sample inputs *)

(** A backend that answers every request; the calibration replies carry
    a rest voltage of 1 V and, for mode "max", a peak voltage of 3 V. *)
Definition backend_ok : Backend :=
  {| reset_reply := Response true (Some tt);
     imu_calibrate_reply := Response true (Some tt);
     muscle_calibrate_reply := fun mode =>
       match mode with
       | mode_rest =>
           Response true (Some {| rest_voltage := Some 1; peak_voltage := None |})
       | mode_max =>
           Response true (Some {| rest_voltage := Some 1; peak_voltage := Some 3 |})
       end |}.

(** A backend that cannot be reached. *)
Definition backend_down : Backend :=
  {| reset_reply := Rejected;
     imu_calibrate_reply := Rejected;
     muscle_calibrate_reply := fun _ => Rejected |}.

(** A backend that answers calibrate-muscle with an error status. *)
Definition backend_refusing : Backend :=
  {| reset_reply := Response true (Some tt);
     imu_calibrate_reply := Response true (Some tt);
     muscle_calibrate_reply := fun _ => Response false None |}.

(** A snapshot that carries only a relative activation, a timestamp and
    the two segments. *)
Definition snapshot (t relative : Q) (th sh : option Reading) : Metrics :=
  {| flexion_angle := None; extension_angle := None;
     muscle_voltage := None; muscle_relative := Some relative;
     torque := None; max_flexion := None; max_extension := None;
     max_torque := None;
     imu := Some {| p_thigh := th; p_shin := sh |}; raw_imu := None;
     muscle_rest_voltage := None; muscle_peak_voltage := None;
     timestamp := Some t |}.

Definition reading (p r : Q) : option Reading :=
  Some {| in_pitch := Some p; in_roll := Some r |}.

(** Snapshot number [n]: timestamp and relative activation [n]. *)
Definition tick (n : nat) : Metrics :=
  snapshot (inject_Z (Z.of_nat n)) (inject_Z (Z.of_nat n)) None None.

Definition ticks (start len : nat) : list Metrics := map tick (seq start len).

(** The component waiting for the peak capture. *)
Definition awaiting_peak : App :=
  run mounted [click_initialize; click_confirm backend_ok].

(** The component after a complete calibration against [backend_ok]. *)
Definition calibrated : App :=
  run mounted [click_initialize; click_confirm backend_ok; click_confirm backend_ok].

(** ** The backend address (App.jsx, vite.config.js)

    Strings are byte strings; the characters the two replacements look at
    are ASCII, so the bytes of any other character pass through. *)

(** One character of a case-insensitive literal. *)
Definition is_letter (lower upper c : Ascii.ascii) : bool :=
  Ascii.eqb c lower || Ascii.eqb c upper.

(** [s.replace(/\/$/, '')]: a slash is removed when it is the last
    character. *)
Fixpoint strip_trailing_slash (s : string) : string :=
  match s with
  | EmptyString => EmptyString
  | String c rest =>
      match rest with
      | EmptyString => if Ascii.eqb c "/"%char then EmptyString else s
      | String _ _ => String c (strip_trailing_slash rest)
      end
  end.

(** [s.replace(/^http/i, 'ws')] *)
Definition http_to_ws (s : string) : string :=
  match s with
  | String a (String b (String c (String d rest))) =>
      if is_letter "h"%char "H"%char a && is_letter "t"%char "T"%char b
         && is_letter "t"%char "T"%char c && is_letter "p"%char "P"%char d
      then String "w"%char (String "s"%char rest)
      else s
  | _ => s
  end.

(** App.jsx: [backendBase] and [websocketBase], from the configured
    [API_BASE_URL]. *)
Definition backendBase (API_BASE_URL : string) : string :=
  strip_trailing_slash API_BASE_URL.

Definition websocketBase (API_BASE_URL : string) : string :=
  http_to_ws (backendBase API_BASE_URL).

(** vite.config.js: the proxy target. *)
Definition websocketTarget (API_BASE_URL : string) : string :=
  http_to_ws API_BASE_URL.

(** ** Values handed to the child components *)

(** [x || d] on a number that may be missing: 0 is falsy too. *)
Definition num_or (x : option Q) (d : Q) : Q :=
  match x with
  | Some v => if Qeq_bool v 0 then d else v
  | None => d
  end.

(** [data?.field] *)
Definition field_of {A : Type} (d : option Metrics) (f : Metrics -> option A)
  : option A :=
  match d with
  | Some m => f m
  | None => None
  end.

(** The props of [KneeAnimation]. *)
Record KneeProps : Type := {
  flexionAngle : Q;
  extensionAngle : Q;
  maxFlexion : Q;
  maxExtension : Q
}.

Definition kneeProps (d : option Metrics) : KneeProps :=
  {| flexionAngle := num_or (field_of d flexion_angle) 0;
     extensionAngle := num_or (field_of d extension_angle) 180;
     maxFlexion := num_or (field_of d max_flexion) 0;
     maxExtension := num_or (field_of d max_extension) 180 |}.

(** The calibration range card shows the two voltages when
    [muscleRange.rest && muscleRange.peak] is truthy. *)
Definition truthy (x : option Q) : bool :=
  match x with
  | Some v => negb (Qeq_bool v 0)
  | None => false
  end.

Definition rangeShown (r : MuscleRange) : bool := truthy (rest r) && truthy (peak r).

(** [modalCopy.unified.confirmLabel] *)
Definition confirmLabel (s : App) : string :=
  match calibrationStep s with
  | Rest => "Capture Resting Baseline"
  | _ => "Capture Max Squeeze"
  end.

(** ** Difficulty levels *)

Record DifficultyLevel : Type := {
  level : Z;
  name : string;
  threshold : Q
}.

Definition difficultyLevels : list DifficultyLevel :=
  [ {| level := 1; name := "Very Easy"; threshold := 20 |};
    {| level := 2; name := "Easy"; threshold := 35 |};
    {| level := 3; name := "Medium"; threshold := 50 |};
    {| level := 4; name := "Hard"; threshold := 65 |};
    {| level := 5; name := "Very Hard"; threshold := 80 |} ].

(** [difficultyLevels[difficulty - 1]]: [None] is [undefined], on which
    reading [.threshold] throws. *)
Definition levelAt (difficulty : Z) : option DifficultyLevel :=
  if (difficulty - 1 <? 0)%Z then None
  else nth_error difficultyLevels (Z.to_nat (difficulty - 1)).

(** The events the rendered page can produce: a difficulty button exists
    for each entry of [difficultyLevels] and passes that entry's level. *)
Definition ui_event (e : Event) : bool :=
  match e with
  | click_difficulty l => existsb (fun d => Z.eqb (level d) l) difficultyLevels
  | _ => true
  end.

(** ** MetricsCharts *)

Module MetricsCharts.

Definition torque_of (item : Metrics) : option Q := torque item.

(** One entry of [chartData]; the [timestamp] label, a locale-dependent
    string, is left out. *)
Record Point : Type := {
  time : nat;
  muscleRelative : Q;
  flexion : Q;
  extension : Q;
  torque : Q
}.

(** [xs.map((item, index) => f item index)] from index [i] on. *)
Fixpoint map_index {A B : Type} (f : A -> nat -> B) (i : nat) (xs : list A)
  : list B :=
  match xs with
  | [] => []
  | x :: xs' => f x i :: map_index f (S i) xs'
  end.

Definition point (item : Metrics) (index : nat) : Point :=
  {| time := index;
     muscleRelative := num_or (muscle_relative item) 0;
     flexion := num_or (flexion_angle item) 0;
     extension := num_or (extension_angle item) 180;
     torque := num_or (torque_of item) 0 |}.

Definition chartData (history : list Metrics) : list Point :=
  map_index point 0 history.

(** [chartData.length === 0]: the text "No data yet" replaces the
    charts. *)
Definition emptyState (history : list Metrics) : bool :=
  Nat.eqb (List.length (chartData history)) 0.

End MetricsCharts.

(** ** MuscleActivationBar

    The component keeps [displayValue] and [isActive]; an effect with the
    dependencies [value] and [threshold] starts a 50 ms timer that copies
    the props it closed over into the state, and its cleanup cancels the
    timer of the previous run. *)

Module Bar.

Record Props : Type := {
  value : Q;
  threshold : Q
}.

Record State : Type := {
  displayValue : Q;
  isActive : bool;
  pending : option Props;
  props : Props
}.

(** The dependency check of [useEffect]: both numbers are the same. *)
Definition same_deps (p q : Props) : bool :=
  Qeq_bool (value p) (value q) && Qeq_bool (threshold p) (threshold q).

(** The first render and its effect. *)
Definition mount (p : Props) : State :=
  {| displayValue := 0; isActive := false; pending := Some p; props := p |}.

(** A later render with props [p]. *)
Definition render (p : Props) (st : State) : State :=
  if same_deps p (props st)
  then {| displayValue := displayValue st; isActive := isActive st;
          pending := pending st; props := p |}
  else {| displayValue := displayValue st; isActive := isActive st;
          pending := Some p; props := p |}.

(** The pending timer fires. *)
Definition timeout (st : State) : State :=
  match pending st with
  | Some p =>
      {| displayValue := value p;
         isActive := Qle_bool (threshold p) (value p);
         pending := None; props := props st |}
  | None => st
  end.

Inductive Color : Type := green | yellow | red.

Definition barColor (st : State) : Color :=
  if isActive st then green
  else if Qle_bool (threshold (props st) * 0.7) (displayValue st) then yellow
       else red.

Inductive Step : Type :=
| rendered (p : Props)
| timer_fired.

Definition step (st : State) (e : Step) : State :=
  match e with
  | rendered p => render p st
  | timer_fired => timeout st
  end.

Definition run (p : Props) (es : list Step) : State :=
  fold_left step es (mount p).

End Bar.

(** The props [App] passes to the bar: [None] when reading the threshold
    throws. *)
Definition barProps (s : App) : option Bar.Props :=
  match levelAt (difficulty s) with
  | Some d =>
      Some {| Bar.value := currentRelative (data s);
              Bar.threshold := threshold d |}
  | None => None
  end.

(** ** Quantities the properties are stated with *)

(** The range a message carries, when it has the key
    [muscle_rest_voltage]. *)
Definition range_of (newData : Metrics) : option MuscleRange :=
  match muscle_rest_voltage newData with
  | Some r => Some {| rest := r; peak := muscle_peak_voltage newData |}
  | None => None
  end.

(** The range carried by the last message that carries one, else [r0]. *)
Definition latest_range (r0 : MuscleRange) (ms : list Metrics) : MuscleRange :=
  fold_left (fun r m => match range_of m with Some r' => r' | None => r end) ms r0.

(** The bar is consistent: a pending timer closes over props equal to
    the current ones, and with no timer pending the state shows the
    current props. *)
Definition bar_consistent (st : Bar.State) : Prop :=
  (forall p, Bar.pending st = Some p -> Bar.same_deps p (Bar.props st) = true) /\
  (Bar.pending st = None ->
   Bar.displayValue st == Bar.value (Bar.props st) /\
   Bar.isActive st
   = Qle_bool (Bar.threshold (Bar.props st)) (Bar.value (Bar.props st))).

(** The pending timers that will clear the toast. *)
Definition toast_timers (s : App) : list Timer :=
  filter (fun t => match callback t with cb_clearToast => true | _ => false end)
    (timers s).

(** The events of a socket. *)
Definition socket_event (e : Event) : bool :=
  match e with
  | ws_open | ws_error | ws_close => true
  | _ => false
  end.

(** The number of closes in a trace. *)
Definition closes (es : list Event) : nat :=
  List.length (filter (fun e => match e with ws_close => true | _ => false end) es).

(** The pending timers that will reconnect. *)
Definition connect_timers (s : App) : list Timer :=
  filter (fun t => match callback t with cb_connectWebSocket => true | _ => false end)
    (timers s).

(** The part of the state the toast depends on. *)
Definition toast_view (s : App)
  : list Timer * nat * option nat * option string :=
  (timers s, next_timer s, toastTimeoutRef s, toastMessage s).

(** What a completed peak capture does to the toast. *)
Definition show_toast (s : App) : App :=
  scheduleToastClear (setToastMessage (Some toastText) (clearToastTimer s)).

(** The toast and its timer agree: timer identifiers are distinct, every
    pending clear-toast timer is the one [toastTimeoutRef] holds and has
    the toast delay, and a visible toast has one pending. *)
Definition toast_inv (s : App) : Prop :=
  timers_fresh s /\
  NoDup (map timer_id (timers s)) /\
  (forall t, In t (toast_timers s) ->
             toastTimeoutRef s = Some (timer_id t) /\ delay t = toastDelay) /\
  (toastMessage s <> None -> toast_timers s <> []).

(** After [n] closes: identifiers are distinct and below the next one,
    the identifier in [toastTimeoutRef] is below the next one and belongs
    to no reconnect timer, and each close is accounted for by a pending
    reconnect timer or by a socket constructed since mounting. *)
Definition retry_inv (n : nat) (s : App) : Prop :=
  timers_fresh s /\
  NoDup (map timer_id (timers s)) /\
  (forall id, toastTimeoutRef s = Some id -> (id < next_timer s)%nat) /\
  (forall t, In t (connect_timers s) -> toastTimeoutRef s <> Some (timer_id t)) /\
  (sockets s + List.length (connect_timers s) = 1 + n)%nat.

(** A snapshot that reports running maxima, and the component after
    receiving it. *)
Definition snapshot_with_maxima : Metrics :=
  {| flexion_angle := Some 40; extension_angle := Some 140;
     muscle_voltage := Some 2; muscle_relative := Some 50;
     torque := Some 3; max_flexion := Some 90; max_extension := Some 120;
     max_torque := Some 7;
     imu := None; raw_imu := None;
     muscle_rest_voltage := None; muscle_peak_voltage := None;
     timestamp := Some 1 |}.

Definition measured : App := run mounted [ws_message snapshot_with_maxima].

(** ** Proof automation *)

(** Turn a boolean comparison into the order fact it decides. *)
Ltac q_order H :=
  match type of H with
  | Qle_bool _ _ = true => apply Qle_bool_iff in H
  | Qle_bool _ _ = false =>
      apply not_true_iff_false in H;
      rewrite Qle_bool_iff in H; apply Qnot_le_lt in H
  end.

Ltac max2_cases a b :=
  let H := fresh "Hmax" in
  unfold Math_max2; destruct (Qle_bool a b) eqn:H; q_order H.

Ltac min2_cases a b :=
  let H := fresh "Hmin" in
  unfold Math_min2; destruct (Qle_bool a b) eqn:H; q_order H.

Ltac q_cases :=
  unfold clamp;
  match goal with
  | |- context [Math_max2 ?a ?b] => max2_cases a b
  end;
  match goal with
  | |- context [Math_min2 ?a ?b] => min2_cases a b
  end.

(** * Properties *)

(** ** Reset *)

(** What [resetSession] computes, by the outcome of its request. *)
Lemma resetSession_unfold (b : Backend) (s : App) :
  resetSession b s =
  match reset_reply b with
  | Rejected => s
  | Response _ _ =>
      setCalibrationStep Ready
        (setMuscleRange {| rest := None; peak := None |} (setHistory [] s))
  end.
Proof.
  unfold resetSession, try_catch, bind, fetch.
  destruct (reset_reply b); reflexivity.
Qed.

(** C1, as the specification states it, fails on the client: after a
    complete calibration (rest 1 V, peak 3 V, step done) an answered reset
    leaves no rest voltage, no peak voltage and the step ready. *)
Lemma reset_forgets_calibration :
  muscleRange calibrated = {| rest := Some 1; peak := Some 3 |} /\
  calibrationStep calibrated = Done /\
  muscleRange (resetSession backend_ok calibrated) = {| rest := None; peak := None |} /\
  calibrationStep (resetSession backend_ok calibrated) = Ready /\
  ~ (muscleRange (resetSession backend_ok calibrated) = muscleRange calibrated /\
     calibrationStep (resetSession backend_ok calibrated) = calibrationStep calibrated).
Proof.
  repeat split; try reflexivity.
  intros [_ H]. discriminate H.
Qed.

(** C1, amended: an answered reset empties the history (so the relative
    peak derived from it is 0) and resets the client's view of the
    calibration (no rest voltage, no peak voltage, step ready); every other
    part of the state is kept.  A reset whose request is rejected changes
    nothing. *)
Theorem reset_effect (b : Backend) (s : App) :
  (reset_reply b = Rejected -> resetSession b s = s) /\
  (reset_reply b <> Rejected ->
   let s' := resetSession b s in
   history s' = [] /\
   relativePeak (history s') = Finite 0 /\
   muscleRange s' = {| rest := None; peak := None |} /\
   calibrationStep s' = Ready /\
   data s' = data s /\ smoothImu s' = smoothImu s /\
   isConnected s' = isConnected s /\ difficulty s' = difficulty s /\
   isCalibrating s' = isCalibrating s /\ toastMessage s' = toastMessage s /\
   modalState s' = modalState s /\ wsRef s' = wsRef s /\
   toastTimeoutRef s' = toastTimeoutRef s /\ sockets s' = sockets s /\
   timers s' = timers s /\ next_timer s' = next_timer s).
Proof.
  rewrite resetSession_unfold.
  destruct (reset_reply b) as [|ok body].
  - split; [reflexivity | intros H; contradiction H; reflexivity].
  - split; [discriminate | intros _; cbn; repeat split].
Qed.

Lemma reset_effect_witness :
  resetSession backend_down calibrated = calibrated /\
  history (resetSession backend_ok calibrated) = [] /\
  calibrationStep (resetSession backend_ok calibrated) = Ready.
Proof.
  split.
  - apply (proj1 (reset_effect backend_down calibrated)). reflexivity.
  - pose proof (proj2 (reset_effect backend_ok calibrated)) as H.
    destruct H as (Hh & _ & _ & Hc & _); [discriminate|].
    split; assumption.
Defined.

(** C9, as the specification states it, fails on the client in its
    "zeroed maxima": after a snapshot that reports the maxima 90, 120 and 7,
    two answered resets in a row leave the history empty but the reported
    maxima where they were, and the knee animation still receives the
    maximum flexion 90. *)
Lemma reset_keeps_reported_maxima :
  let s' := resetSession backend_ok (resetSession backend_ok measured) in
  history s' = [] /\
  field_of (data s') max_flexion = Some 90 /\
  field_of (data s') max_extension = Some 120 /\
  field_of (data s') max_torque = Some 7 /\
  maxFlexion (kneeProps (data s')) = 90 /\
  ~ maxFlexion (kneeProps (data s')) == 0.
Proof.
  cbv zeta. repeat split; try reflexivity. discriminate.
Qed.

(** C9, amended: resetting twice in a row gives the state that resetting
    once gives.  After an answered reset that state has an empty history
    and a relative peak of 0, and the second reset changes nothing whatever
    its own request's outcome.  The maxima reported by the backend are not
    zeroed by either reset: the latest snapshot, with its max_flexion,
    max_extension and max_torque, is kept as it was received. *)
Theorem reset_idempotent (b b' : Backend) (s : App) :
  resetSession b (resetSession b s) = resetSession b s /\
  (reset_reply b <> Rejected ->
   resetSession b' (resetSession b s) = resetSession b s /\
   history (resetSession b s) = [] /\
   relativePeak (history (resetSession b s)) = Finite 0) /\
  data (resetSession b s) = data s /\
  data (resetSession b' (resetSession b s)) = data s /\
  kneeProps (data (resetSession b' (resetSession b s))) = kneeProps (data s).
Proof.
  rewrite !resetSession_unfold.
  destruct (reset_reply b) as [|ok body].
  - split; [reflexivity|].
    split; [intros H; contradiction H; reflexivity|].
    destruct (reset_reply b'); repeat split.
  - split; [reflexivity|]. split.
    + intros _. destruct (reset_reply b'); repeat split.
    + destruct (reset_reply b'); repeat split.
Qed.

Lemma reset_idempotent_witness :
  resetSession backend_ok (resetSession backend_ok calibrated)
  = resetSession backend_ok calibrated /\
  resetSession backend_down (resetSession backend_ok calibrated)
  = resetSession backend_ok calibrated /\
  data (resetSession backend_ok (resetSession backend_ok measured)) = data measured.
Proof.
  destruct (reset_idempotent backend_ok backend_down calibrated) as (H1 & H2 & _).
  split; [exact H1|].
  split; [apply H2; discriminate|].
  apply (reset_idempotent backend_ok backend_ok measured).
Defined.

(** ** History *)

Lemma slice_last_short {A : Type} (n : nat) (xs : list A) :
  (List.length xs <= n)%nat -> slice_last n xs = xs.
Proof.
  intros H. unfold slice_last.
  replace (List.length xs - n)%nat with 0%nat by lia. reflexivity.
Qed.

Lemma slice_last_length {A : Type} (n : nat) (xs : list A) :
  List.length (slice_last n xs) = Nat.min n (List.length xs).
Proof.
  unfold slice_last. rewrite length_skipn. lia.
Qed.

(** Slicing, appending and slicing again is slicing once. *)
Lemma slice_last_app {A : Type} (n : nat) (xs ys : list A) :
  slice_last n (slice_last n xs ++ ys) = slice_last n (xs ++ ys).
Proof.
  destruct (Nat.le_gt_cases (List.length xs) n) as [Hle | Hgt].
  - rewrite (slice_last_short n xs Hle). reflexivity.
  - unfold slice_last at 1 3.
    rewrite !length_app, slice_last_length.
    replace (Nat.min n (List.length xs)) with n by lia.
    unfold slice_last.
    set (k := (List.length xs - n)%nat).
    replace (List.length xs + List.length ys - n)%nat
      with ((n + List.length ys - n) + k)%nat by lia.
    rewrite <- skipn_skipn.
    f_equal.
    rewrite skipn_app.
    replace (k - List.length xs)%nat with 0%nat by lia.
    reflexivity.
Qed.

Lemma history_onmessage (newData : Metrics) (s : App) :
  history (onmessage newData s)
  = slice_last maxHistoryLength (history s ++ [newData]).
Proof.
  unfold onmessage. destruct (muscle_rest_voltage newData); reflexivity.
Qed.

Lemma run_app (s : App) (es es' : list Event) :
  run s (es ++ es') = run (run s es) es'.
Proof. apply fold_left_app. Qed.

(** After at least one message the history is the tail of everything
    the component held and received. *)
Lemma history_run_messages (m : Metrics) (ms : list Metrics) (s : App) :
  history (run s (map ws_message (m :: ms)))
  = slice_last maxHistoryLength (history s ++ m :: ms).
Proof.
  revert m s. induction ms as [|m' ms IH]; intros m s.
  - apply history_onmessage.
  - change (run s (map ws_message (m :: m' :: ms)))
      with (run (onmessage m s) (map ws_message (m' :: ms))).
    rewrite IH, history_onmessage, slice_last_app, <- app_assoc.
    reflexivity.
Qed.

(** With at least [maxHistoryLength] messages received, nothing older
    than them is left. *)
Lemma history_window (ms : list Metrics) (s : App) :
  (maxHistoryLength <= List.length ms)%nat ->
  history (run s (map ws_message ms)) = slice_last maxHistoryLength ms.
Proof.
  intros Hlen. unfold maxHistoryLength in Hlen.
  destruct ms as [|m ms]; [cbn in Hlen; lia|].
  rewrite history_run_messages. unfold slice_last, maxHistoryLength.
  rewrite skipn_app, length_app.
  rewrite skipn_all2 by lia.
  cbn [app]. f_equal. lia.
Qed.

(** C2: once more than [maxHistoryLength] = 100 snapshots have arrived,
    the history has exactly 100 entries and they are the 100 snapshots
    received last, in arrival order: the list of all snapshots received
    with its oldest [length - 100] entries dropped.  On a full history one
    more snapshot drops the oldest entry and is appended at the end. *)
Theorem history_bound (ms : list Metrics) (s : App) :
  (maxHistoryLength < List.length ms)%nat ->
  maxHistoryLength = 100%nat /\
  List.length (history (run s (map ws_message ms))) = 100%nat /\
  history (run s (map ws_message ms)) = skipn (List.length ms - 100) ms /\
  (forall newData,
      history (onmessage newData (run s (map ws_message ms)))
      = tl (history (run s (map ws_message ms))) ++ [newData]).
Proof.
  intros Hlen.
  assert (Hh : history (run s (map ws_message ms)) = skipn (List.length ms - 100) ms).
  { rewrite history_window by lia. reflexivity. }
  assert (Hl : List.length (history (run s (map ws_message ms))) = 100%nat).
  { rewrite Hh, length_skipn. unfold maxHistoryLength in Hlen. lia. }
  repeat split; try assumption.
  intros newData. rewrite history_onmessage.
  set (h := history (run s (map ws_message ms))) in *.
  unfold slice_last. rewrite length_app, Hl. cbn [List.length].
  replace (100 + 1 - maxHistoryLength)%nat with 1%nat by (unfold maxHistoryLength; lia).
  destruct h as [|x h]; [discriminate Hl|]. reflexivity.
Qed.

Lemma history_bound_witness :
  history (run mounted (map ws_message (ticks 0 103))) = ticks 3 100.
Proof.
  destruct (history_bound (ticks 0 103) mounted) as (_ & _ & H & _).
  - vm_compute. lia.
  - rewrite H. reflexivity.
Defined.

(** ** Calibration *)

Lemma calibrateMuscleStep_ok (b : Backend) (mode : Mode) (result : CalibrationReply)
      (s : App) :
  muscle_calibrate_reply b mode = Response true (Some result) ->
  calibrateMuscleStep b mode s
  = (setMuscleRange
       {| rest := or_else (rest_voltage result) (rest (muscleRange s));
          peak := or_else (peak_voltage result) (peak (muscleRange s)) |} s,
     Some tt).
Proof.
  intros H. unfold calibrateMuscleStep, bind. rewrite H. reflexivity.
Qed.

(** A failed request makes [calibrateMuscleStep] throw before it writes. *)
Lemma calibrateMuscleStep_fails (b : Backend) (mode : Mode) (s : App) :
  reply_fails (muscle_calibrate_reply b mode) = true ->
  calibrateMuscleStep b mode s = (s, None).
Proof.
  intros H. unfold calibrateMuscleStep, bind.
  destruct (muscle_calibrate_reply b mode) as [|[|] [body|]];
    try reflexivity; discriminate H.
Qed.

Lemma calibrateImu_ok (b : Backend) (s : App) :
  imu_calibrate_reply b <> Rejected ->
  calibrateImu b s = (setSmoothImu createNeutralImu s, Some tt).
Proof.
  intros H. unfold calibrateImu, bind.
  destruct (imu_calibrate_reply b); [contradiction H; reflexivity | reflexivity].
Qed.

(** C3: the calibration flow follows the transition table.  The start
    command enters the rest step from every step, so from ready and from
    done, where its button reads "Recalibrate".  In the rest step a
    capture that the backend answers with a rest voltage stores it, resets
    the smoothed orientation to the neutral pose and moves to the peak
    step.  In the peak step a capture answered with a peak voltage stores
    it and moves to done.  In the steps ready and done a capture does
    nothing. *)
Theorem calibration_transitions :
  (forall s, calibrationStep (openUnifiedModal s) = Rest /\
             modalShown (openUnifiedModal s) = true /\
             muscleRange (openUnifiedModal s) = muscleRange s) /\
  (forall s, calibrationStep s = Done -> initializeLabel s = "Recalibrate"%string) /\
  (forall b s result v,
      calibrationStep s = Rest ->
      muscle_calibrate_reply b mode_rest = Response true (Some result) ->
      rest_voltage result = Some v ->
      imu_calibrate_reply b <> Rejected ->
      let s' := handleModalConfirm b s in
      rest (muscleRange s') = Some v /\
      smoothImu s' = createNeutralImu /\
      calibrationStep s' = Peak) /\
  (forall b s result p,
      calibrationStep s = Peak ->
      muscle_calibrate_reply b mode_max = Response true (Some result) ->
      peak_voltage result = Some p ->
      let s' := handleModalConfirm b s in
      peak (muscleRange s') = Some p /\
      rest (muscleRange s') = or_else (rest_voltage result) (rest (muscleRange s)) /\
      calibrationStep s' = Done) /\
  (forall b s,
      calibrationStep s = Ready \/ calibrationStep s = Done ->
      handleModalConfirm b s = setIsCalibrating false s).
Proof.
  split; [|split; [|split; [|split]]].
  - intros s. repeat split.
  - intros s H. unfold initializeLabel. rewrite H. reflexivity.
  - intros b s result v Hstep Hreply Hv Himu s'. subst s'.
    unfold handleModalConfirm, try_catch, bind. rewrite Hstep.
    rewrite (calibrateMuscleStep_ok _ _ _ _ Hreply).
    rewrite (calibrateImu_ok _ _ Himu).
    cbn. rewrite Hv. repeat split.
  - intros b s result p Hstep Hreply Hp s'. subst s'.
    unfold handleModalConfirm, try_catch, bind. rewrite Hstep.
    rewrite (calibrateMuscleStep_ok _ _ _ _ Hreply).
    unfold clearToastTimer. cbn. rewrite Hp.
    destruct (toastTimeoutRef s); repeat split.
  - intros b s Hstep. unfold handleModalConfirm, try_catch.
    destruct Hstep as [-> | ->]; reflexivity.
Qed.

Lemma calibration_transitions_witness :
  calibrationStep (openUnifiedModal mounted) = Rest /\
  rest (muscleRange (handleModalConfirm backend_ok (openUnifiedModal mounted))) = Some 1 /\
  calibrationStep (handleModalConfirm backend_ok (openUnifiedModal mounted)) = Peak /\
  peak (muscleRange (handleModalConfirm backend_ok awaiting_peak)) = Some 3 /\
  calibrationStep (handleModalConfirm backend_ok awaiting_peak) = Done /\
  initializeLabel (handleModalConfirm backend_ok awaiting_peak) = "Recalibrate"%string.
Proof.
  destruct calibration_transitions as (Hstart & Hlabel & Hrest & Hpeak & _).
  split; [apply Hstart|].
  destruct (Hrest backend_ok (openUnifiedModal mounted)
              {| rest_voltage := Some 1; peak_voltage := None |} 1)
    as (Hr & _ & Hs); try reflexivity; try discriminate.
  destruct (Hpeak backend_ok awaiting_peak
              {| rest_voltage := Some 1; peak_voltage := Some 3 |} 3)
    as (Hp & _ & Hd); try reflexivity.
  split; [exact Hr|]. split; [exact Hs|].
  split; [exact Hp|]. split; [exact Hd|].
  apply Hlabel. exact Hd.
Defined.

(** C7: with no rest voltage captured, calibrate-muscle with mode max
    fails with CalibrationOrderError and returns the calibration record as
    it was; and when the client's max capture fails (the request is
    rejected, answered with an error status, or answered with no usable
    body), the displayed muscle range and the calibration step stay as
    they were. *)
Theorem calibration_order (cal : MuscleCalibration) (voltage : Q)
        (b : Backend) (s : App) :
  rest_voltage cal = None ->
  calibrationStep s = Peak ->
  reply_fails (muscle_calibrate_reply b mode_max) = true ->
  calibrate_muscle mode_max voltage cal = (cal, inl CalibrationOrderError) /\
  calibrateMuscleStep b mode_max s = (s, None) /\
  muscleRange (handleModalConfirm b s) = muscleRange s /\
  calibrationStep (handleModalConfirm b s) = calibrationStep s.
Proof.
  intros Hcal Hstep Hfail.
  split; [unfold calibrate_muscle; rewrite Hcal; reflexivity|].
  split; [apply calibrateMuscleStep_fails; exact Hfail|].
  unfold handleModalConfirm, try_catch, bind. rewrite Hstep.
  rewrite (calibrateMuscleStep_fails _ _ _ Hfail).
  split; cbn; [reflexivity | exact Hstep].
Qed.

Lemma calibration_order_witness :
  muscleRange (handleModalConfirm backend_refusing awaiting_peak)
  = {| rest := Some 1; peak := None |} /\
  calibrationStep (handleModalConfirm backend_refusing awaiting_peak) = Peak.
Proof.
  destruct (calibration_order {| rest_voltage := None; peak_voltage := None |} 2
              backend_refusing awaiting_peak) as (_ & _ & Hr & Hs);
    try reflexivity.
  rewrite Hr, Hs. split; reflexivity.
Defined.

(** ** Smoothing of the orientation *)

Lemma smoothImu_onmessage (newData : Metrics) (s : App) :
  smoothImu (onmessage newData s) = smooth (imuPayload_of newData) (smoothImu s).
Proof.
  unfold onmessage. destruct (muscle_rest_voltage newData); reflexivity.
Qed.

(** Each segment is updated from its own estimate and its own reading. *)
Lemma segment_onmessage (segment : Segment) (newData : Metrics) (s : App) :
  imu_get (smoothImu (onmessage newData s)) segment
  = smoothSegment (imu_get (smoothImu s) segment)
      (payload_get (imuPayload_of newData) segment).
Proof.
  rewrite smoothImu_onmessage. destruct segment; reflexivity.
Qed.

(** C5: over any run of messages in which a segment is missing from the
    IMU payload (three in a row or any other number), that segment's
    smoothed estimate stays exactly what it was before the run; the
    handler is defined on every message; and at each such message the other
    segment, when present, is blended as usual. *)
Theorem missing_segment_carried_forward (segment other : Segment)
        (ms : list Metrics) (s : App) :
  Forall (fun m => payload_get (imuPayload_of m) segment = None) ms ->
  imu_get (smoothImu (run s (map ws_message ms))) segment
  = imu_get (smoothImu s) segment /\
  (forall m s' inc,
      In m ms ->
      payload_get (imuPayload_of m) other = Some inc ->
      imu_get (smoothImu (onmessage m s')) segment = imu_get (smoothImu s') segment /\
      imu_get (smoothImu (onmessage m s')) other
      = {| pitch := smoothingAlpha * pitch (imu_get (smoothImu s') other)
                    + (1 - smoothingAlpha)
                      * (in_pitch inc ?? pitch (imu_get (smoothImu s') other));
           roll := smoothingAlpha * roll (imu_get (smoothImu s') other)
                   + (1 - smoothingAlpha)
                     * (in_roll inc ?? roll (imu_get (smoothImu s') other)) |}).
Proof.
  intros Hmissing. split.
  - revert s. induction Hmissing as [|m ms Hm _ IH]; intros s.
    + reflexivity.
    + change (run s (map ws_message (m :: ms)))
        with (run (onmessage m s) (map ws_message ms)).
      rewrite IH, segment_onmessage, Hm. reflexivity.
  - intros m s' inc Hin Hother.
    rewrite Forall_forall in Hmissing.
    rewrite !segment_onmessage, (Hmissing m Hin), Hother.
    split; reflexivity.
Qed.

Lemma missing_segment_carried_forward_witness :
  let s := onmessage (snapshot 0 0 (reading 10 20) (reading 30 40)) mounted in
  let gap t := snapshot t 0 None (reading 50 60) in
  imu_get (smoothImu (run s (map ws_message [gap 1; gap 2; gap 3]))) Thigh
  = {| pitch := 0.8 * 0 + (1 - 0.8) * 10; roll := 0.8 * 0 + (1 - 0.8) * 20 |}.
Proof.
  intros s gap.
  destruct (missing_segment_carried_forward Thigh Shin [gap 1; gap 2; gap 3] s)
    as [H _].
  - repeat constructor.
  - rewrite H. reflexivity.
Defined.

(** C6: for every segment whose reading is present, the new smoothed
    pitch is alpha * previous + (1 - alpha) * incoming pitch and the new
    smoothed roll is alpha * previous + (1 - alpha) * incoming roll, with
    the constant alpha = 0.8, which lies in [0.8, 0.98]; pitch and roll of
    a segment are each blended from their own previous value and their own
    reading only. *)
Theorem complementary_blend (segment : Segment) (newData : Metrics) (s : App)
        (inc : Reading) :
  payload_get (imuPayload_of newData) segment = Some inc ->
  let prev := imu_get (smoothImu s) segment in
  let new := imu_get (smoothImu (onmessage newData s)) segment in
  smoothingAlpha = 0.8 /\
  0.8 <= smoothingAlpha <= 0.98 /\
  (forall p, in_pitch inc = Some p ->
             pitch new = smoothingAlpha * pitch prev + (1 - smoothingAlpha) * p) /\
  (forall r, in_roll inc = Some r ->
             roll new = smoothingAlpha * roll prev + (1 - smoothingAlpha) * r).
Proof.
  intros Hinc prev new. subst prev new.
  rewrite segment_onmessage, Hinc.
  split; [reflexivity|].
  split; [unfold smoothingAlpha, Qle; cbn; lia|].
  split; intros x Hx; cbn; rewrite Hx; reflexivity.
Qed.

Lemma complementary_blend_witness :
  let m := snapshot 0 0 (reading 10 20) None in
  pitch (imu_get (smoothImu (onmessage m mounted)) Thigh) == 2 /\
  roll (imu_get (smoothImu (onmessage m mounted)) Thigh) == 4.
Proof.
  intros m.
  destruct (complementary_blend Thigh m mounted
              {| in_pitch := Some 10; in_roll := Some 20 |} eq_refl)
    as (_ & _ & Hp & Hr).
  rewrite (Hp 10 eq_refl), (Hr 20 eq_refl).
  split; reflexivity.
Defined.

(** ** Relative activation *)

Lemma clamp_bounds (lo hi x : Q) : lo <= hi -> lo <= clamp lo hi x <= hi.
Proof. intros H. q_cases; lra. Qed.

Lemma clamp_inside (lo hi x : Q) : lo <= x <= hi -> clamp lo hi x == x.
Proof. intros H. q_cases; lra. Qed.

Lemma clamp_below (lo hi x : Q) : lo <= hi -> x <= lo -> clamp lo hi x == lo.
Proof. intros H H'. q_cases; lra. Qed.

Lemma clamp_above (lo hi x : Q) : lo <= hi -> hi <= x -> clamp lo hi x == hi.
Proof. intros H H'. q_cases; lra. Qed.

(** C4: with peak above rest, relative activation is
    100 (v - rest) / (peak - rest) clamped to [0, 100]: it lies in
    [0, 100], equals the quotient when that lies in [0, 100], is 0 at or
    below the rest voltage and 100 at or above the peak voltage.  With the
    rest or the peak voltage missing it is 0.  Rest 1 V, peak 3 V and a
    sample of 2 V give 50.  On the client a missing relative activation is
    shown as 0, and the bar height of a relative activation is that
    value. *)
Theorem relative_activation_spec (r p v : Q) :
  r < p ->
  let cal := {| rest_voltage := Some r; peak_voltage := Some p |} in
  let x := 100 * (v - r) / (p - r) in
  relative_activation cal v = clamp 0 100 x /\
  0 <= relative_activation cal v <= 100 /\
  (0 <= x <= 100 -> relative_activation cal v == x) /\
  (v <= r -> relative_activation cal v == 0) /\
  (p <= v -> relative_activation cal v == 100) /\
  (forall cal' v',
      rest_voltage cal' = None \/ peak_voltage cal' = None ->
      relative_activation cal' v' = 0) /\
  relative_activation {| rest_voltage := Some 1; peak_voltage := Some 3 |} 2 == 50 /\
  currentRelative None = 0 /\
  (forall m, muscle_relative m = None -> currentRelative (Some m) = 0) /\
  (forall m y, muscle_relative m = Some y -> currentRelative (Some m) = y) /\
  barHeight (relative_activation cal v) == relative_activation cal v.
Proof.
  intros Hrp cal x.
  assert (Hdef : relative_activation cal v = clamp 0 100 x) by reflexivity.
  assert (Hb : 0 <= clamp 0 100 x <= 100) by (apply clamp_bounds; lra).
  assert (Hpos : 0 < p - r) by lra.
  split; [exact Hdef|]. rewrite Hdef.
  split; [exact Hb|].
  split; [apply clamp_inside|].
  split.
  { intros Hv. apply clamp_below; [lra|].
    unfold x. apply Qle_shift_div_r; [exact Hpos | lra]. }
  split.
  { intros Hv. apply clamp_above; [lra|].
    unfold x. apply Qle_shift_div_l; [exact Hpos | lra]. }
  split.
  { intros cal' v' [H | H]; unfold relative_activation; rewrite H;
      [reflexivity | destruct (rest_voltage cal'); reflexivity]. }
  split; [reflexivity|].
  split; [reflexivity|].
  split; [intros m H; cbn; rewrite H; reflexivity|].
  split; [intros m y H; cbn; rewrite H; reflexivity|].
  change (barHeight (clamp 0 100 x)) with (clamp 0 100 (clamp 0 100 x)).
  apply clamp_inside. exact Hb.
Qed.

Lemma relative_activation_spec_witness :
  relative_activation {| rest_voltage := Some 1; peak_voltage := Some 3 |} 2 == 50 /\
  relative_activation {| rest_voltage := Some 1; peak_voltage := Some 3 |} 0.5 == 0 /\
  relative_activation {| rest_voltage := Some 1; peak_voltage := Some 3 |} 3.2 == 100.
Proof.
  split; [|split].
  - destruct (relative_activation_spec 1 3 2) as (_ & _ & H & _);
      [reflexivity|].
    rewrite H; [reflexivity | split; discriminate].
  - destruct (relative_activation_spec 1 3 0.5) as (_ & _ & _ & H & _);
      [reflexivity|].
    apply H. discriminate.
  - destruct (relative_activation_spec 1 3 3.2) as (_ & _ & _ & _ & H & _);
      [reflexivity|].
    apply H. discriminate.
Defined.

(** ** Relative peak *)

Lemma Math_max2_cases (x y : Q) :
  x <= Math_max2 x y /\ y <= Math_max2 x y /\
  (Math_max2 x y = x \/ Math_max2 x y = y).
Proof.
  max2_cases x y; repeat split; try lra; auto.
Qed.

(** Folding [max_step] from a number gives a number that bounds the
    start and every element, and is one of them. *)
Lemma fold_max_step (xs : list Q) (acc : Q) :
  exists m,
    fold_left max_step xs (Finite acc) = Finite m /\
    acc <= m /\
    (forall x, In x xs -> x <= m) /\
    (m = acc \/ In m xs).
Proof.
  revert acc. induction xs as [|x xs IH]; intros acc.
  - exists acc. repeat split; [lra | intros x [] | left; reflexivity].
  - destruct (IH (Math_max2 acc x)) as (m & Hfold & Hacc & Hall & Hin).
    destruct (Math_max2_cases acc x) as (Ha & Hx & Hsel).
    exists m. split; [exact Hfold|].
    split; [lra|].
    split.
    + intros y [<- | Hy]; [lra | apply Hall; exact Hy].
    + destruct Hin as [-> | Hin]; [|right; right; exact Hin].
      destruct Hsel as [-> | ->]; [left | right; left]; reflexivity.
Qed.

Lemma Math_max_nonempty (x : Q) (xs : list Q) :
  exists m,
    Math_max (x :: xs) = Finite m /\
    (forall y, In y (x :: xs) -> y <= m) /\
    In m (x :: xs).
Proof.
  destruct (fold_max_step xs x) as (m & Hfold & Hacc & Hall & Hin).
  exists m. split; [exact Hfold|]. split.
  - intros y [<- | Hy]; [exact Hacc | apply Hall; exact Hy].
  - destruct Hin as [-> | Hin]; [left; reflexivity | right; exact Hin].
Qed.

(** C10: the relative peak of an empty history is 0; of any other
    history it is a number that no retained snapshot's relative activation
    (0 where the field is missing) exceeds and that one retained snapshot
    attains.  It is computed from the retained history alone: once 100
    snapshots have arrived it is the relative peak of the last 100, whatever
    was received before them. *)
Theorem relativePeak_spec (h : list Metrics) :
  relativePeak [] = Finite 0 /\
  (h <> [] ->
   exists m,
     relativePeak h = Finite m /\
     (forall entry, In entry h -> muscle_relative entry ?? 0 <= m) /\
     (exists entry, In entry h /\ m = muscle_relative entry ?? 0)) /\
  (forall s ms,
      (maxHistoryLength <= List.length ms)%nat ->
      relativePeak (history (run s (map ws_message ms)))
      = relativePeak (skipn (List.length ms - 100) ms)).
Proof.
  split; [reflexivity|]. split.
  - intros Hne. destruct h as [|e h]; [contradiction Hne; reflexivity|].
    set (f := fun entry : Metrics => muscle_relative entry ?? 0).
    destruct (Math_max_nonempty (f e) (map f h)) as (m & Hmax & Hall & Hin).
    exists m. split; [exact Hmax|]. split.
    + intros entry Hentry. apply (Hall (f entry)).
      change (In (f entry) (map f (e :: h))).
      apply in_map. exact Hentry.
    + change (f e :: map f h) with (map f (e :: h)) in Hin.
      apply in_map_iff in Hin. destruct Hin as (entry & Heq & Hentry).
      exists entry. split; [exact Hentry | symmetry; exact Heq].
  - intros s ms Hlen. rewrite history_window by exact Hlen. reflexivity.
Qed.

Lemma relativePeak_spec_witness :
  (exists m,
      relativePeak (ticks 0 5) = Finite m /\
      (forall entry, In entry (ticks 0 5) -> muscle_relative entry ?? 0 <= m) /\
      (exists entry, In entry (ticks 0 5) /\ m = muscle_relative entry ?? 0)) /\
  relativePeak (history (run mounted (map ws_message (tick 500 :: ticks 0 100))))
  = Finite 99.
Proof.
  split.
  - apply (proj1 (proj2 (relativePeak_spec (ticks 0 5)))). discriminate.
  - rewrite (proj2 (proj2 (relativePeak_spec [])) mounted (tick 500 :: ticks 0 100)).
    + reflexivity.
    + vm_compute. lia.
Defined.

(** ** Reconnection *)

Lemma Forall_filter_keep {A : Type} (P : A -> Prop) (f : A -> bool) (l : list A) :
  Forall P l -> Forall P (filter f l).
Proof.
  induction 1 as [|x l Hx _ IH]; cbn; [constructor|].
  destruct (f x); [constructor; assumption | assumption].
Qed.

Lemma fresh_ext (s s' : App) :
  timers s' = timers s -> next_timer s' = next_timer s ->
  timers_fresh s -> timers_fresh s'.
Proof.
  unfold timers_fresh. intros -> ->. exact (fun H => H).
Qed.

Lemma fresh_setTimeout (cb : Callback) (ms : Z) (s : App) :
  timers_fresh s -> timers_fresh (setTimeout cb ms s).
Proof.
  unfold timers_fresh, setTimeout. cbn. intros H.
  apply Forall_app. split.
  - eapply Forall_impl; [|exact H]. cbn. intros t Ht. lia.
  - constructor; [cbn; lia | constructor].
Qed.

Lemma fresh_clearTimeout (id : nat) (s : App) :
  timers_fresh s -> timers_fresh (clearTimeout id s).
Proof.
  unfold timers_fresh, clearTimeout. cbn. apply Forall_filter_keep.
Qed.

Lemma fresh_handleModalConfirm (b : Backend) (s : App) :
  timers_fresh s -> timers_fresh (handleModalConfirm b s).
Proof.
  intros H.
  assert (Hpeak : forall r,
             timers_fresh
               (scheduleToastClear
                  (setToastMessage (Some toastText)
                     (clearToastTimer (setMuscleRange r (setIsCalibrating true s)))))).
  { intros r. unfold scheduleToastClear.
    apply (fresh_ext (setTimeout cb_clearToast toastDelay
                        (setToastMessage (Some toastText)
                           (clearToastTimer (setMuscleRange r (setIsCalibrating true s))))));
      [reflexivity | reflexivity |].
    apply fresh_setTimeout.
    unfold clearToastTimer. cbn.
    destruct (toastTimeoutRef s) as [id|].
    - apply (fresh_ext (clearTimeout id s)); [reflexivity | reflexivity |].
      apply fresh_clearTimeout. exact H.
    - exact H. }
  unfold handleModalConfirm, try_catch, bind, calibrateMuscleStep, calibrateImu, bind.
  destruct (calibrationStep s); try exact H.
  - destruct (muscle_calibrate_reply b mode_rest) as [|[|] [result|]];
      try exact H.
    destruct (imu_calibrate_reply b); exact H.
  - destruct (muscle_calibrate_reply b mode_max) as [|[|] [result|]];
      try exact H.
    cbn [fetch ret fst snd negb json_of get modify].
    eapply fresh_ext; [| |apply Hpeak]; reflexivity.
Qed.

Lemma fresh_fireTimer (id : nat) (s : App) :
  timers_fresh s -> timers_fresh (fireTimer id s).
Proof.
  intros H. unfold fireTimer.
  destruct (find _ (timers s)) as [t|]; [|exact H].
  apply (fresh_ext (clearTimeout id s)).
  - destruct (callback t); reflexivity.
  - destruct (callback t); reflexivity.
  - apply fresh_clearTimeout. exact H.
Qed.

(** Every handler keeps the timer table well formed. *)
Lemma fresh_handle (s : App) (e : Event) :
  timers_fresh s -> timers_fresh (handle s e).
Proof.
  intros H. destruct e; cbn [handle].
  - exact H.
  - apply (fresh_ext s); [| |exact H];
      unfold onmessage; destruct (muscle_rest_voltage newData); reflexivity.
  - exact H.
  - apply (fresh_setTimeout cb_connectWebSocket reconnectDelay (setIsConnected false s)).
    exact H.
  - apply fresh_fireTimer. exact H.
  - rewrite resetSession_unfold. destruct (reset_reply b); exact H.
  - exact H.
  - destruct (modalShown s && negb (isCalibrating s));
      [apply fresh_handleModalConfirm|]; exact H.
  - destruct (modalShown s); exact H.
  - exact H.
Qed.

Lemma fresh_run (es : list Event) (s : App) :
  timers_fresh s -> timers_fresh (run s es).
Proof.
  revert s. induction es as [|e es IH]; intros s H; [exact H|].
  apply IH, fresh_handle, H.
Qed.

Lemma fresh_reachable (es : list Event) : timers_fresh (run mounted es).
Proof. apply fresh_run. constructor. Qed.

(** A timer that was just scheduled is the one its identifier finds, and
    clearing it restores the table. *)
Lemma find_fresh (ts : list Timer) (t : Timer) :
  Forall (fun t' => (timer_id t' < timer_id t)%nat) ts ->
  find (fun t' => Nat.eqb (timer_id t') (timer_id t)) (ts ++ [t]) = Some t /\
  filter (fun t' => negb (Nat.eqb (timer_id t') (timer_id t))) (ts ++ [t]) = ts.
Proof.
  induction 1 as [|t' ts Ht' _ [IHfind IHfilter]]; cbn.
  - rewrite Nat.eqb_refl. split; reflexivity.
  - assert (Hneq : Nat.eqb (timer_id t') (timer_id t) = false)
      by (apply Nat.eqb_neq; lia).
    rewrite Hneq. cbn. rewrite IHfilter. split; [exact IHfind | reflexivity].
Qed.

(** One round from a well-formed state: the close schedules the retry,
    the retry constructs the next socket, and the timer table is as
    before. *)
Lemma close_and_retry_spec (s : App) :
  timers_fresh s ->
  timers (handle s ws_close)
  = timers s ++ [{| timer_id := next_timer s; delay := 3000;
                    callback := cb_connectWebSocket |}] /\
  sockets (close_and_retry s) = S (sockets s) /\
  wsRef (close_and_retry s) = Some (S (sockets s)) /\
  timers (close_and_retry s) = timers s /\
  timers_fresh (close_and_retry s).
Proof.
  intros Hfresh.
  set (t := {| timer_id := next_timer s; delay := 3000;
               callback := cb_connectWebSocket |}).
  destruct (find_fresh (timers s) t Hfresh) as [Hfind Hfilter].
  split; [reflexivity|].
  assert (Hround : close_and_retry s
                   = connectWebSocket (clearTimeout (next_timer s) (handle s ws_close))).
  { unfold close_and_retry. cbn [handle]. unfold fireTimer.
    change (timers (onclose s)) with (timers s ++ [t]).
    change (next_timer s) with (timer_id t) at 1.
    rewrite Hfind. reflexivity. }
  split; [rewrite Hround; reflexivity|].
  split; [rewrite Hround; reflexivity|].
  split; [rewrite Hround; cbn; exact Hfilter|].
  unfold close_and_retry. apply fresh_handle, fresh_handle, Hfresh.
Qed.

Lemma close_and_retry_iter (n : nat) (s : App) :
  timers_fresh s ->
  timers_fresh (Nat.iter n close_and_retry s) /\
  sockets (Nat.iter n close_and_retry s) = (n + sockets s)%nat.
Proof.
  intros Hfresh. induction n as [|n [IHfresh IHsockets]]; [split; [exact Hfresh | reflexivity]|].
  rewrite !Nat.iter_succ.
  destruct (close_and_retry_spec _ IHfresh) as (_ & Hs & _ & _ & Hf).
  split; [exact Hf|]. rewrite Hs, IHsockets. reflexivity.
Qed.

(** C8: in every state the component can reach, a close of the socket
    marks the client disconnected and schedules one timer with the constant
    delay of 3000 ms that runs [connectWebSocket]; when that timer fires a
    new socket is constructed and becomes the current one.  The state the
    close happens in is arbitrary and no count of attempts is kept: from any
    reachable state, n rounds of close and retry construct n further
    sockets, for every n. *)
Theorem reconnect_forever (es : list Event) (n : nat) :
  let s := run mounted es in
  let s1 := handle s ws_close in
  let s2 := handle s1 (timer_fires (next_timer s)) in
  reconnectDelay = 3000%Z /\
  isConnected s1 = false /\
  timers s1
  = timers s ++ [{| timer_id := next_timer s; delay := 3000;
                    callback := cb_connectWebSocket |}] /\
  sockets s1 = sockets s /\
  sockets s2 = S (sockets s) /\
  wsRef s2 = Some (S (sockets s)) /\
  timers s2 = timers s /\
  sockets (Nat.iter n close_and_retry s) = (n + sockets s)%nat.
Proof.
  intros s s1 s2.
  pose proof (fresh_reachable es) as Hfresh. fold s in Hfresh.
  destruct (close_and_retry_spec s Hfresh) as (Ht & Hs & Hw & Hts & _).
  split; [reflexivity|]. split; [reflexivity|].
  split; [exact Ht|]. split; [reflexivity|].
  split; [exact Hs|]. split; [exact Hw|]. split; [exact Hts|].
  apply close_and_retry_iter, Hfresh.
Qed.

(** * Further properties of the client *)

(** ** The backend address *)

Lemma append_slash_nonempty (s : string) : (s ++ "/")%string <> EmptyString.
Proof. destruct s; cbn; discriminate. Qed.

Lemma strip_cons (c : ascii) (s : string) :
  s <> EmptyString ->
  strip_trailing_slash (String c s) = String c (strip_trailing_slash s).
Proof. destruct s; [intros H; contradiction H; reflexivity | reflexivity]. Qed.

Lemma strip_append_slash (s : string) :
  strip_trailing_slash (s ++ "/") = s.
Proof.
  induction s as [|c s IH]; [reflexivity|].
  change (String c s ++ "/")%string with (String c (s ++ "/")).
  rewrite strip_cons by apply append_slash_nonempty.
  rewrite IH. reflexivity.
Qed.

Lemma strip_no_slash (s : string) :
  (forall s', s <> (s' ++ "/")%string) -> strip_trailing_slash s = s.
Proof.
  induction s as [|c s IH]; intros H; [reflexivity|].
  cbn [strip_trailing_slash].
  destruct s as [|c' s].
  - destruct (Ascii.eqb_spec c "/"%char) as [-> | _]; [|reflexivity].
    contradiction (H EmptyString). reflexivity.
  - f_equal. apply IH. intros s' E.
    apply (H (String c s')). cbn. rewrite E. reflexivity.
Qed.

(** X1: [backendBase] removes exactly one trailing slash: stripping a
    string to which a slash was appended gives the string back (so of two
    trailing slashes one is kept), and a string that does not end in a
    slash is unchanged. *)
Theorem backendBase_strips_one_slash (url : string) :
  backendBase (url ++ "/") = url /\
  backendBase (url ++ "//") = (url ++ "/")%string /\
  ((forall s', url <> (s' ++ "/")%string) -> backendBase url = url).
Proof.
  unfold backendBase. split; [apply strip_append_slash|]. split.
  - replace (url ++ "//")%string with ((url ++ "/") ++ "/")%string.
    + apply strip_append_slash.
    + induction url as [|c url IH]; [reflexivity|]. cbn. rewrite IH. reflexivity.
  - apply strip_no_slash.
Qed.

Lemma backendBase_strips_one_slash_witness :
  backendBase "http://192.168.7.2:8010" = "http://192.168.7.2:8010"%string.
Proof.
  apply (proj2 (proj2 (backendBase_strips_one_slash "http://192.168.7.2:8010"))).
  intros s' E.
  assert (H : strip_trailing_slash "http://192.168.7.2:8010"
              = strip_trailing_slash (s' ++ "/")) by (rewrite <- E; reflexivity).
  rewrite strip_append_slash in H. subst s'. discriminate E.
Defined.

Lemma http_to_ws_strip (s : string) :
  http_to_ws (strip_trailing_slash s) = strip_trailing_slash (http_to_ws s).
Proof.
  destruct s as [|a [|b [|c [|d rest]]]].
  - reflexivity.
  - cbn. destruct (Ascii.eqb a "/"); reflexivity.
  - cbn. destruct (Ascii.eqb b "/"); reflexivity.
  - cbn. destruct (Ascii.eqb c "/"); reflexivity.
  - destruct rest as [|e rest].
    + cbn [strip_trailing_slash].
      destruct (Ascii.eqb_spec d "/"%char) as [-> | Hd].
      * cbn. rewrite !andb_false_r. reflexivity.
      * unfold http_to_ws.
        destruct (is_letter "h" "H" a && is_letter "t" "T" b
                  && is_letter "t" "T" c && is_letter "p" "P" d);
          [reflexivity|].
        cbn. destruct (Ascii.eqb_spec d "/"%char); [contradiction | reflexivity].
    + repeat rewrite (strip_cons _ (String _ _)) by discriminate.
      unfold http_to_ws.
      destruct (is_letter "h" "H" a && is_letter "t" "T" b
                && is_letter "t" "T" c && is_letter "p" "P" d);
        repeat rewrite (strip_cons _ (String _ _)) by discriminate;
        reflexivity.
Qed.

(** X2: the socket base the application derives (strip the trailing
    slash, then turn a leading "http" in any letter case into "ws") is the
    proxy target of vite.config.js (which only replaces the scheme) with
    its trailing slash stripped, for every configured address. *)
Theorem websocketBase_matches_proxy_target (API_BASE_URL : string) :
  websocketBase API_BASE_URL
  = strip_trailing_slash (websocketTarget API_BASE_URL).
Proof.
  unfold websocketBase, websocketTarget, backendBase. apply http_to_ws_strip.
Qed.

(** ** What each event does to the history, the snapshot and the flags *)

Lemma run_invariant (P : App -> Prop) :
  P mounted ->
  (forall s e, P s -> P (handle s e)) ->
  forall es, P (run mounted es).
Proof.
  intros H0 Hstep es.
  assert (G : forall s, P s -> P (run s es)).
  { induction es as [|e es IH]; intros s Hs; [exact Hs|].
    apply IH, Hstep, Hs. }
  apply G, H0.
Qed.

Lemma run_invariant_ui (P : App -> Prop) :
  P mounted ->
  (forall s e, ui_event e = true -> P s -> P (handle s e)) ->
  forall es, forallb ui_event es = true -> P (run mounted es).
Proof.
  intros H0 Hstep es.
  assert (G : forall s, P s -> forallb ui_event es = true -> P (run s es)).
  { induction es as [|e es IH]; intros s Hs Hui; [exact Hs|].
    cbn in Hui. apply andb_true_iff in Hui. destruct Hui as [He Hes].
    apply IH; [apply Hstep; assumption | exact Hes]. }
  intros Hui. apply G; [exact H0 | exact Hui].
Qed.

(** The calibration handler writes the flag, the range, the smoothed
    orientation, the step, the toast, the modal and the timers only. *)
Lemma handleModalConfirm_frame (b : Backend) (s : App) :
  history (handleModalConfirm b s) = history s /\
  data (handleModalConfirm b s) = data s /\
  difficulty (handleModalConfirm b s) = difficulty s /\
  isConnected (handleModalConfirm b s) = isConnected s /\
  wsRef (handleModalConfirm b s) = wsRef s /\
  sockets (handleModalConfirm b s) = sockets s /\
  isCalibrating (handleModalConfirm b s) = false.
Proof.
  unfold handleModalConfirm, try_catch, bind, calibrateMuscleStep, calibrateImu, bind.
  destruct (calibrationStep s); cbn; try (repeat split; reflexivity).
  - destruct (muscle_calibrate_reply b mode_rest) as [|[|] [result|]]; cbn;
      try (repeat split; reflexivity).
    destruct (imu_calibrate_reply b); cbn; repeat split; reflexivity.
  - destruct (muscle_calibrate_reply b mode_max) as [|[|] [result|]]; cbn;
      try (repeat split; reflexivity).
    unfold clearToastTimer. cbn.
    destruct (toastTimeoutRef s); cbn; repeat split; reflexivity.
Qed.

Lemma history_handle (s : App) (e : Event) :
  history (handle s e)
  = match e with
    | ws_message newData => slice_last maxHistoryLength (history s ++ [newData])
    | click_reset b =>
        match reset_reply b with
        | Rejected => history s
        | Response _ _ => []
        end
    | _ => history s
    end.
Proof.
  destruct e; cbn [handle]; try reflexivity.
  - apply history_onmessage.
  - unfold fireTimer. destruct (find _ (timers s)) as [t|]; [|reflexivity].
    destruct (callback t); reflexivity.
  - rewrite resetSession_unfold. destruct (reset_reply b); reflexivity.
  - destruct (modalShown s && negb (isCalibrating s)); [|reflexivity].
    apply handleModalConfirm_frame.
  - destruct (modalShown s); reflexivity.
Qed.

Lemma data_handle (s : App) (e : Event) :
  data (handle s e)
  = match e with
    | ws_message newData => Some newData
    | _ => data s
    end.
Proof.
  destruct e; cbn [handle]; try reflexivity.
  - unfold onmessage. destruct (muscle_rest_voltage newData); reflexivity.
  - unfold fireTimer. destruct (find _ (timers s)) as [t|]; [|reflexivity].
    destruct (callback t); reflexivity.
  - rewrite resetSession_unfold. destruct (reset_reply b); reflexivity.
  - destruct (modalShown s && negb (isCalibrating s)); [|reflexivity].
    apply handleModalConfirm_frame.
  - destruct (modalShown s); reflexivity.
Qed.

Lemma isCalibrating_handle (s : App) (e : Event) :
  isCalibrating s = false -> isCalibrating (handle s e) = false.
Proof.
  intros H. destruct e; cbn [handle]; try exact H.
  - unfold onmessage. destruct (muscle_rest_voltage newData); exact H.
  - unfold fireTimer. destruct (find _ (timers s)) as [t|]; [|exact H].
    destruct (callback t); exact H.
  - rewrite resetSession_unfold. destruct (reset_reply b); exact H.
  - destruct (modalShown s && negb (isCalibrating s)); [|exact H].
    apply handleModalConfirm_frame.
  - destruct (modalShown s); exact H.
Qed.

Lemma isCalibrating_reachable (es : list Event) :
  isCalibrating (run mounted es) = false.
Proof.
  apply (run_invariant (fun s => isCalibrating s = false)); [reflexivity|].
  intros s e. apply isCalibrating_handle.
Qed.

Lemma history_length_handle (s : App) (e : Event) :
  (List.length (history s) <= 100)%nat ->
  (List.length (history (handle s e)) <= 100)%nat.
Proof.
  intros H. rewrite history_handle.
  destruct e; try exact H.
  - rewrite slice_last_length. unfold maxHistoryLength. lia.
  - destruct (reset_reply b); [exact H | cbn; lia].
Qed.

(** X3: whatever events arrive, in whatever order (messages, resets,
    clicks, socket events, timers), the history never holds more than 100
    snapshots, and a message adds at most one entry. *)
Theorem history_never_exceeds_capacity (es : list Event) (newData : Metrics) :
  let s := run mounted es in
  (List.length (history s) <= 100)%nat /\
  (List.length (history (handle s (ws_message newData)))
   <= S (List.length (history s)))%nat /\
  (List.length (history (handle s (ws_message newData))) <= 100)%nat.
Proof.
  intros s.
  assert (H : (List.length (history s) <= 100)%nat).
  { apply (run_invariant (fun s => (List.length (history s) <= 100)%nat));
      [cbn; lia | apply history_length_handle]. }
  split; [exact H|]. split; [|apply history_length_handle; exact H].
  rewrite history_handle, slice_last_length, length_app. cbn [List.length]. lia.
Qed.

Lemma slice_last_snoc {A : Type} (n : nat) (xs : list A) (x : A) :
  (0 < n)%nat ->
  exists ys, slice_last n (xs ++ [x]) = ys ++ [x].
Proof.
  intros Hn. unfold slice_last. rewrite length_app, skipn_app. cbn [List.length].
  replace (List.length xs + 1 - n - List.length xs)%nat with 0%nat by lia.
  exists (skipn (List.length xs + 1 - n) xs). reflexivity.
Qed.

(** X4: in every reachable state the newest entry of the history, when
    there is one, is the snapshot the cards display ([data]): the charts
    and the cards never disagree about the latest sample. *)
Theorem latest_history_entry_is_data (es : list Event) (h : list Metrics)
        (m : Metrics) :
  history (run mounted es) = h ++ [m] ->
  data (run mounted es) = Some m.
Proof.
  revert h m.
  apply (run_invariant
           (fun s => forall h m, history s = h ++ [m] -> data s = Some m)).
  - intros h m H. destruct h; discriminate H.
  - intros s e IH h m. rewrite history_handle, data_handle.
    destruct e; try apply IH.
    + intros H.
      destruct (slice_last_snoc maxHistoryLength (history s) newData) as [ys Hys];
        [unfold maxHistoryLength; lia|].
      rewrite Hys in H. apply app_inj_tail in H. destruct H as [_ ->].
      reflexivity.
    + destruct (reset_reply b); [apply IH|].
      intros H. destruct h; discriminate H.
Qed.

Lemma latest_history_entry_is_data_witness :
  data (run mounted (map ws_message (ticks 0 3))) = Some (tick 2).
Proof.
  apply (latest_history_entry_is_data (map ws_message (ticks 0 3))
           [tick 0; tick 1] (tick 2)).
  reflexivity.
Defined.

(** ** Failed and half-failed captures *)

Lemma setIsCalibrating_false_id (s : App) :
  isCalibrating s = false -> setIsCalibrating false s = s.
Proof. destruct s; cbn. intros ->. reflexivity. Qed.

(** The request a confirm makes in each step. *)
Lemma handleModalConfirm_fails (b : Backend) (s : App) (mode : Mode) :
  (calibrationStep s = Rest /\ mode = mode_rest) \/
  (calibrationStep s = Peak /\ mode = mode_max) ->
  reply_fails (muscle_calibrate_reply b mode) = true ->
  handleModalConfirm b s = setIsCalibrating false s.
Proof.
  intros Hstep Hfail. unfold handleModalConfirm, try_catch, bind.
  destruct Hstep as [[-> ->] | [-> ->]];
    rewrite (calibrateMuscleStep_fails _ _ _ Hfail); reflexivity.
Qed.

(** X5: in every reachable state a confirm whose calibrate-muscle
    request fails (rejected, error status, or unusable body) changes
    nothing at all: not the range, the step, the smoothed orientation, the
    modal, the toast or the timers.  The same holds for a confirm in the
    steps ready and done, which sends nothing. *)
Theorem failed_confirm_changes_nothing (es : list Event) (b : Backend) :
  let s := run mounted es in
  (calibrationStep s = Rest -> reply_fails (muscle_calibrate_reply b mode_rest) = true ->
   handle s (click_confirm b) = s) /\
  (calibrationStep s = Peak -> reply_fails (muscle_calibrate_reply b mode_max) = true ->
   handle s (click_confirm b) = s) /\
  (calibrationStep s = Ready \/ calibrationStep s = Done ->
   handle s (click_confirm b) = s).
Proof.
  intros s.
  pose proof (isCalibrating_reachable es) as Hflag. fold s in Hflag.
  assert (Hid : setIsCalibrating false s = s)
    by (apply setIsCalibrating_false_id; exact Hflag).
  cbn [handle].
  split; [|split].
  - intros Hstep Hfail. destruct (modalShown s && negb (isCalibrating s)); [|reflexivity].
    rewrite (handleModalConfirm_fails b s mode_rest); auto.
  - intros Hstep Hfail. destruct (modalShown s && negb (isCalibrating s)); [|reflexivity].
    rewrite (handleModalConfirm_fails b s mode_max); auto.
  - intros Hstep. destruct (modalShown s && negb (isCalibrating s)); [|reflexivity].
    unfold handleModalConfirm, try_catch.
    destruct Hstep as [-> | ->]; exact Hid.
Qed.

Lemma failed_confirm_changes_nothing_witness :
  handle awaiting_peak (click_confirm backend_down) = awaiting_peak /\
  handle (run mounted [click_initialize]) (click_confirm backend_refusing)
  = run mounted [click_initialize].
Proof.
  split.
  - apply (proj1 (proj2 (failed_confirm_changes_nothing
                           [click_initialize; click_confirm backend_ok] backend_down)));
      reflexivity.
  - apply (proj1 (failed_confirm_changes_nothing [click_initialize] backend_refusing));
      reflexivity.
Defined.

(** X6: a rest capture is not atomic.  When the calibrate-muscle request
    is answered but the IMU calibration request is rejected, the rest
    voltage of the reply is already stored, while the step stays at rest
    and the smoothed orientation is not reset: the state is the old one
    with the new range and nothing else changed. *)
Theorem rest_capture_half_done (b : Backend) (s : App) (result : CalibrationReply) :
  calibrationStep s = Rest ->
  muscle_calibrate_reply b mode_rest = Response true (Some result) ->
  imu_calibrate_reply b = Rejected ->
  handleModalConfirm b s
  = setIsCalibrating false
      (setMuscleRange
         {| rest := or_else (rest_voltage result) (rest (muscleRange s));
            peak := or_else (peak_voltage result) (peak (muscleRange s)) |} s) /\
  calibrationStep (handleModalConfirm b s) = Rest /\
  smoothImu (handleModalConfirm b s) = smoothImu s.
Proof.
  intros Hstep Hreply Himu.
  assert (H : handleModalConfirm b s
              = setIsCalibrating false
                  (setMuscleRange
                     {| rest := or_else (rest_voltage result) (rest (muscleRange s));
                        peak := or_else (peak_voltage result) (peak (muscleRange s)) |} s)).
  { unfold handleModalConfirm, try_catch, bind. rewrite Hstep.
    rewrite (calibrateMuscleStep_ok _ _ _ _ Hreply).
    unfold calibrateImu, bind. rewrite Himu. reflexivity. }
  rewrite H. split; [reflexivity|]. split; [exact Hstep | reflexivity].
Qed.

Lemma rest_capture_half_done_witness :
  let b := {| reset_reply := Rejected; imu_calibrate_reply := Rejected;
              muscle_calibrate_reply := muscle_calibrate_reply backend_ok |} in
  let s := openUnifiedModal mounted in
  rest (muscleRange (handleModalConfirm b s)) = Some 1 /\
  calibrationStep (handleModalConfirm b s) = Rest.
Proof.
  intros b s.
  destruct (rest_capture_half_done b s
              {| rest_voltage := Some 1; peak_voltage := None |})
    as (H & Hstep & _); try reflexivity.
  split; [rewrite H; reflexivity | exact Hstep].
Defined.

(** ** The displayed range follows the stream *)

Lemma muscleRange_onmessage (newData : Metrics) (s : App) :
  muscleRange (onmessage newData s)
  = match range_of newData with Some r => r | None => muscleRange s end /\
  calibrationStep (onmessage newData s) = calibrationStep s /\
  modalState (onmessage newData s) = modalState s.
Proof.
  unfold onmessage, range_of.
  destruct (muscle_rest_voltage newData); repeat split; reflexivity.
Qed.

(** X7: over any run of messages the displayed muscle range is the one
    carried by the last message that has the key [muscle_rest_voltage]
    (present there with a null value, it clears the rest voltage), and the
    range held before when no message has it; messages never move the
    calibration step or the modal.  So after a reset the next message with
    the key brings the range back while the step stays ready. *)
Theorem range_follows_stream (ms : list Metrics) (s : App) :
  muscleRange (run s (map ws_message ms)) = latest_range (muscleRange s) ms /\
  calibrationStep (run s (map ws_message ms)) = calibrationStep s /\
  modalState (run s (map ws_message ms)) = modalState s /\
  (forall b m r,
      reset_reply b <> Rejected ->
      range_of m = Some r ->
      muscleRange (onmessage m (resetSession b s)) = r /\
      calibrationStep (onmessage m (resetSession b s)) = Ready).
Proof.
  split; [|split; [|split]].
  - revert s. induction ms as [|m ms IH]; intros s; [reflexivity|].
    change (run s (map ws_message (m :: ms)))
      with (run (onmessage m s) (map ws_message ms)).
    rewrite IH. destruct (muscleRange_onmessage m s) as [-> _]. reflexivity.
  - revert s. induction ms as [|m ms IH]; intros s; [reflexivity|].
    change (run s (map ws_message (m :: ms)))
      with (run (onmessage m s) (map ws_message ms)).
    rewrite IH. apply muscleRange_onmessage.
  - revert s. induction ms as [|m ms IH]; intros s; [reflexivity|].
    change (run s (map ws_message (m :: ms)))
      with (run (onmessage m s) (map ws_message ms)).
    rewrite IH. apply muscleRange_onmessage.
  - intros b m r Hb Hr.
    destruct (muscleRange_onmessage m (resetSession b s)) as (-> & -> & _).
    rewrite Hr. split; [reflexivity|].
    rewrite resetSession_unfold.
    destruct (reset_reply b); [contradiction Hb; reflexivity | reflexivity].
Qed.

Lemma range_follows_stream_witness :
  let m := {| flexion_angle := None; extension_angle := None;
              muscle_voltage := None; muscle_relative := None; torque := None;
              max_flexion := None; max_extension := None; max_torque := None;
              imu := None; raw_imu := None;
              muscle_rest_voltage := Some (Some 1);
              muscle_peak_voltage := Some 3; timestamp := None |} in
  muscleRange (onmessage m (resetSession backend_ok calibrated))
  = {| rest := Some 1; peak := Some 3 |} /\
  calibrationStep (onmessage m (resetSession backend_ok calibrated)) = Ready.
Proof.
  intros m.
  apply (proj2 (proj2 (proj2 (range_follows_stream [] calibrated))) backend_ok m).
  - discriminate.
  - reflexivity.
Defined.

(** ** Difficulty levels and the activation bar *)

Lemma levelAt_range (d : Z) :
  (levelAt d = None <-> ~ (1 <= d <= 5)%Z) /\
  ((1 <= d <= 5)%Z -> exists entry, levelAt d = Some entry /\ level entry = d).
Proof.
  split.
  - unfold levelAt. destruct (Z.ltb_spec (d - 1) 0) as [Hneg | Hpos].
    + split; [lia | reflexivity].
    + rewrite nth_error_None. cbn [List.length difficultyLevels]. lia.
  - intros Hd.
    assert (H : d = 1%Z \/ d = 2%Z \/ d = 3%Z \/ d = 4%Z \/ d = 5%Z) by lia.
    destruct H as [-> | [-> | [-> | [-> | ->]]]];
      eexists; split; reflexivity.
Qed.

Lemma difficulty_handle (s : App) (e : Event) :
  difficulty (handle s e)
  = match e with
    | click_difficulty l => l
    | _ => difficulty s
    end.
Proof.
  destruct e; cbn [handle]; try reflexivity.
  - unfold onmessage. destruct (muscle_rest_voltage newData); reflexivity.
  - unfold fireTimer. destruct (find _ (timers s)) as [t|]; [|reflexivity].
    destruct (callback t); reflexivity.
  - rewrite resetSession_unfold. destruct (reset_reply b); reflexivity.
  - destruct (modalShown s && negb (isCalibrating s)); [|reflexivity].
    apply handleModalConfirm_frame.
  - destruct (modalShown s); reflexivity.
Qed.

(** X10: as long as the difficulty is chosen with the rendered buttons,
    the selected difficulty is between 1 and 5 and the lookup
    [difficultyLevels[difficulty - 1]] finds the entry of that very level,
    so the bar always receives a threshold; for a difficulty outside 1..5
    the lookup finds nothing. *)
Theorem threshold_lookup_succeeds (es : list Event) :
  forallb ui_event es = true ->
  let s := run mounted es in
  (1 <= difficulty s <= 5)%Z /\
  (exists entry,
      levelAt (difficulty s) = Some entry /\
      level entry = difficulty s /\
      barProps s = Some {| Bar.value := currentRelative (data s);
                           Bar.threshold := threshold entry |}) /\
  (forall d, levelAt d = None <-> ~ (1 <= d <= 5)%Z).
Proof.
  intros Hui s.
  assert (Hd : (1 <= difficulty s <= 5)%Z).
  { unfold s.
    apply (run_invariant_ui (fun s => (1 <= difficulty s <= 5)%Z)); [cbn; lia | | exact Hui].
    intros s0 e He H0. rewrite difficulty_handle.
    destruct e; try exact H0.
    unfold ui_event, difficultyLevels in He. cbn [existsb level] in He.
    rewrite !orb_true_iff, !Z.eqb_eq in He.
    destruct He as [H|[H|[H|[H|[H|H]]]]]; try discriminate H; lia. }
  split; [exact Hd|]. split.
  - destruct (proj2 (levelAt_range (difficulty s)) Hd) as (entry & He & Hl).
    exists entry. split; [exact He|]. split; [exact Hl|].
    unfold barProps. rewrite He. reflexivity.
  - intros d. apply levelAt_range.
Qed.

Lemma threshold_lookup_succeeds_witness :
  barProps (run mounted [click_difficulty 3; ws_message (tick 7)])
  <> None.
Proof.
  destruct (threshold_lookup_succeeds [click_difficulty 3; ws_message (tick 7)])
    as (_ & (entry & _ & _ & H) & _); [reflexivity|].
  rewrite H. discriminate.
Defined.

(** X11: thresholds rise strictly with the level: of two different
    levels of the table the higher one has the strictly larger threshold,
    so a value that meets the threshold of a level meets the threshold of
    every lower level. *)
Theorem thresholds_rise_with_level (a b : Z) (ea eb : DifficultyLevel) (v : Q) :
  levelAt a = Some ea ->
  levelAt b = Some eb ->
  (a <= b)%Z ->
  threshold ea <= threshold eb /\
  ((a < b)%Z -> threshold ea < threshold eb) /\
  (Qle_bool (threshold eb) v = true -> Qle_bool (threshold ea) v = true).
Proof.
  intros Ha Hb Hab.
  assert (Hra : (1 <= a <= 5)%Z).
  { destruct (Z_le_dec 1 a) as [H1|H1]; [destruct (Z_le_dec a 5) as [H5|H5]|];
      [lia | | ];
      assert (Hn : levelAt a = None) by (apply levelAt_range; lia);
      rewrite Hn in Ha; discriminate Ha. }
  assert (Hrb : (1 <= b <= 5)%Z).
  { destruct (Z_le_dec 1 b) as [H1|H1]; [destruct (Z_le_dec b 5) as [H5|H5]|];
      [lia | | ];
      assert (Hn : levelAt b = None) by (apply levelAt_range; lia);
      rewrite Hn in Hb; discriminate Hb. }
  assert (Hle : threshold ea <= threshold eb).
  { assert (Hca : a = 1%Z \/ a = 2%Z \/ a = 3%Z \/ a = 4%Z \/ a = 5%Z) by lia.
    assert (Hcb : b = 1%Z \/ b = 2%Z \/ b = 3%Z \/ b = 4%Z \/ b = 5%Z) by lia.
    destruct Hca as [-> | [-> | [-> | [-> | ->]]]];
      destruct Hcb as [-> | [-> | [-> | [-> | ->]]]];
      try lia;
      cbn in Ha, Hb; injection Ha as <-; injection Hb as <-;
      cbn; discriminate. }
  assert (Hlt : (a < b)%Z -> threshold ea < threshold eb).
  { intros Hstrict.
    assert (Hca : a = 1%Z \/ a = 2%Z \/ a = 3%Z \/ a = 4%Z \/ a = 5%Z) by lia.
    assert (Hcb : b = 1%Z \/ b = 2%Z \/ b = 3%Z \/ b = 4%Z \/ b = 5%Z) by lia.
    destruct Hca as [-> | [-> | [-> | [-> | ->]]]];
      destruct Hcb as [-> | [-> | [-> | [-> | ->]]]];
      try lia;
      cbn in Ha, Hb; injection Ha as <-; injection Hb as <-;
      reflexivity. }
  split; [exact Hle|]. split; [exact Hlt|].
  rewrite !Qle_bool_iff. intros H. lra.
Qed.

Lemma thresholds_rise_with_level_witness :
  35 < 65 /\ Qle_bool 35 70 = true.
Proof.
  destruct (thresholds_rise_with_level 2 4
              {| level := 2; name := "Easy"; threshold := 35 |}
              {| level := 4; name := "Hard"; threshold := 65 |} 70
              eq_refl eq_refl ltac:(lia)) as (_ & Hlt & Hmeet).
  split; [apply Hlt; lia | apply Hmeet; reflexivity].
Defined.

(** X12: the bar height is always between 0 and 100, equals the displayed
    value when that is between 0 and 100, never decreases when the
    displayed value increases, and clamping twice changes nothing. *)
Theorem barHeight_properties (v w : Q) :
  0 <= barHeight v <= 100 /\
  (0 <= v <= 100 -> barHeight v == v) /\
  (v <= 0 -> barHeight v == 0) /\
  (100 <= v -> barHeight v == 100) /\
  (v <= w -> barHeight v <= barHeight w) /\
  barHeight (barHeight v) == barHeight v.
Proof.
  change barHeight with (clamp 0 100).
  pose proof (clamp_bounds 0 100 v) as Hv.
  pose proof (clamp_bounds 0 100 w) as Hw.
  split; [apply Hv; lra|].
  split; [apply clamp_inside|].
  split; [apply clamp_below; lra|].
  split; [apply clamp_above; lra|].
  split.
  - intros Hvw.
    destruct (Qlt_le_dec v 0) as [Hv0 | Hv0].
    + rewrite (clamp_below 0 100 v) by lra. apply Hw. lra.
    + destruct (Qlt_le_dec 100 w) as [Hw1 | Hw1].
      * rewrite (clamp_above 0 100 w) by lra. apply Hv. lra.
      * destruct (Qlt_le_dec 100 v) as [Hv1 | Hv1]; [lra|].
        rewrite (clamp_inside 0 100 v), (clamp_inside 0 100 w) by lra. exact Hvw.
  - apply clamp_inside. apply Hv. lra.
Qed.

Lemma barHeight_properties_witness :
  barHeight 140 == 100 /\ barHeight (-3) == 0 /\ barHeight 42 == 42.
Proof.
  destruct (barHeight_properties 140 140) as (_ & _ & _ & H1 & _).
  destruct (barHeight_properties (-3) 0) as (_ & _ & H2 & _).
  destruct (barHeight_properties 42 42) as (_ & H3 & _).
  split; [apply H1; discriminate|].
  split; [apply H2; discriminate | apply H3; split; discriminate].
Defined.

(** ** The activation bar as a debounced display *)

Lemma same_deps_iff (p q : Bar.Props) :
  Bar.same_deps p q = true
  <-> Bar.value p == Bar.value q /\ Bar.threshold p == Bar.threshold q.
Proof.
  unfold Bar.same_deps. rewrite andb_true_iff, !Qeq_bool_iff. reflexivity.
Qed.

Lemma bar_consistent_mount (p : Bar.Props) : bar_consistent (Bar.mount p).
Proof.
  split; cbn.
  - intros q [= <-]. apply same_deps_iff. split; reflexivity.
  - discriminate.
Qed.

Lemma bar_consistent_step (st : Bar.State) (e : Bar.Step) :
  bar_consistent st -> bar_consistent (Bar.step st e).
Proof.
  intros [Hpending Hsettled]. destruct e as [q|]; cbn [Bar.step].
  - unfold Bar.render.
    destruct (Bar.same_deps q (Bar.props st)) eqn:Hsame.
    + apply same_deps_iff in Hsame. destruct Hsame as [Hv Ht].
      split; cbn.
      * intros p Hp. specialize (Hpending p Hp).
        apply same_deps_iff in Hpending. destruct Hpending as [Hv' Ht'].
        apply same_deps_iff. split; [rewrite Hv', Hv | rewrite Ht', Ht]; reflexivity.
      * intros Hnone. destruct (Hsettled Hnone) as [Hd Ha].
        split; [rewrite Hd, Hv; reflexivity|].
        rewrite Ha. apply Qleb_comp; symmetry; assumption.
    + split; cbn.
      * intros p [= <-]. apply same_deps_iff. split; reflexivity.
      * discriminate.
  - unfold Bar.timeout. destruct (Bar.pending st) as [p|] eqn:Hp.
    + specialize (Hpending p eq_refl).
      apply same_deps_iff in Hpending. destruct Hpending as [Hv Ht].
      split; cbn.
      * discriminate.
      * intros _. split; [exact Hv|]. apply Qleb_comp; assumption.
    + split; [rewrite Hp; discriminate | intros _; apply Hsettled; reflexivity].
Qed.

Lemma bar_consistent_run (p : Bar.Props) (es : list Bar.Step) :
  bar_consistent (Bar.run p es).
Proof.
  unfold Bar.run.
  assert (G : forall st, bar_consistent st -> bar_consistent (fold_left Bar.step es st)).
  { induction es as [|e es IH]; intros st H; [exact H|].
    apply IH, bar_consistent_step, H. }
  apply G, bar_consistent_mount.
Qed.

Lemma bar_run_snoc (p : Bar.Props) (es : list Bar.Step) (e : Bar.Step) :
  Bar.run p (es ++ [e]) = Bar.step (Bar.run p es) e.
Proof. unfold Bar.run. rewrite fold_left_app. reflexivity. Qed.

Lemma bar_props_render (q : Bar.Props) (st : Bar.State) :
  Bar.props (Bar.render q st) = q /\
  Bar.displayValue (Bar.render q st) = Bar.displayValue st /\
  Bar.isActive (Bar.render q st) = Bar.isActive st.
Proof.
  unfold Bar.render. destruct (Bar.same_deps q (Bar.props st)); repeat split.
Qed.

(** A render can change the colour before the timer fires: showing 15
    against the threshold 20 the bar is yellow, and a render with the
    threshold 50 alone turns it red. *)
Example bar_colour_changes_on_render :
  let p := {| Bar.value := 15; Bar.threshold := 20 |} in
  let q := {| Bar.value := 15; Bar.threshold := 50 |} in
  Bar.barColor (Bar.run p [Bar.timer_fired]) = Bar.yellow /\
  Bar.barColor (Bar.run p [Bar.timer_fired; Bar.rendered q]) = Bar.red /\
  Bar.displayValue (Bar.run p [Bar.timer_fired; Bar.rendered q]) = 15.
Proof. cbv zeta. repeat split. Qed.

(** X13: the bar shows a debounced copy of its value.  Whatever renders
    and timer firings came before, a render alone leaves the displayed
    value and the active flag as they were; the colour is recomputed at
    once from that old flag and old displayed value against 0.7 of the new
    threshold, so an inactive bar can switch between yellow and red on the
    render alone.  Once the timer has fired after the last render the
    displayed value is the value of the latest props, the bar is active
    exactly when that value reaches the latest threshold, and the colour is
    green then, yellow from 0.7 of the threshold on, and red below. *)
Theorem bar_shows_latest_props (p q : Bar.Props) (es : list Bar.Step) :
  let before := Bar.run p es in
  let waiting := Bar.run p (es ++ [Bar.rendered q]) in
  let settled := Bar.run p (es ++ [Bar.rendered q; Bar.timer_fired]) in
  Bar.displayValue waiting = Bar.displayValue before /\
  Bar.isActive waiting = Bar.isActive before /\
  Bar.barColor waiting
  = (if Bar.isActive before then Bar.green
     else if Qle_bool (Bar.threshold q * 0.7) (Bar.displayValue before)
          then Bar.yellow
          else Bar.red) /\
  Bar.pending settled = None /\
  Bar.displayValue settled == Bar.value q /\
  Bar.isActive settled = Qle_bool (Bar.threshold q) (Bar.value q) /\
  Bar.barColor settled
  = (if Qle_bool (Bar.threshold q) (Bar.value q) then Bar.green
     else if Qle_bool (Bar.threshold q * 0.7) (Bar.value q) then Bar.yellow
          else Bar.red).
Proof.
  intros before waiting settled.
  assert (Hw : waiting = Bar.render q before) by apply bar_run_snoc.
  assert (Hs : settled = Bar.timeout waiting).
  { unfold settled, waiting.
    change (es ++ [Bar.rendered q; Bar.timer_fired])
      with (es ++ [Bar.rendered q] ++ [Bar.timer_fired]).
    rewrite app_assoc. apply bar_run_snoc. }
  destruct (bar_props_render q before) as (Hprops & Hdisp & Hact).
  rewrite <- Hw in Hprops, Hdisp, Hact.
  split; [exact Hdisp|]. split; [exact Hact|].
  split; [unfold Bar.barColor; rewrite Hact, Hdisp, Hprops; reflexivity|].
  pose proof (bar_consistent_run p (es ++ [Bar.rendered q; Bar.timer_fired])) as Hc.
  fold settled in Hc. destruct Hc as [_ Hsettled].
  assert (Hprops' : Bar.props settled = q).
  { rewrite Hs. unfold Bar.timeout.
    destruct (Bar.pending waiting); exact Hprops. }
  assert (Hnone : Bar.pending settled = None).
  { rewrite Hs. unfold Bar.timeout.
    destruct (Bar.pending waiting) eqn:Hp; [reflexivity | exact Hp]. }
  destruct (Hsettled Hnone) as [Hd Ha]. rewrite Hprops' in Hd, Ha.
  split; [exact Hnone|]. split; [exact Hd|]. split; [exact Ha|].
  unfold Bar.barColor. rewrite Ha, Hprops'.
  destruct (Qle_bool (Bar.threshold q) (Bar.value q)); [reflexivity|].
  rewrite (Qleb_comp _ _ (Qeq_refl (Bar.threshold q * 0.7)) _ _ Hd).
  reflexivity.
Qed.

(** ** Fallbacks with [||] *)

Lemma num_or_cases (x : option Q) (d : Q) :
  (forall v, x = Some v -> ~ v == 0 -> num_or x d = v) /\
  (forall v, x = Some v -> v == 0 -> num_or x d = d) /\
  (x = None -> num_or x d = d) /\
  num_or x 0 == x ?? 0.
Proof.
  unfold num_or. split; [|split; [|split]].
  - intros v -> Hv. destruct (Qeq_bool v 0) eqn:E; [|reflexivity].
    apply Qeq_bool_iff in E. contradiction.
  - intros v -> Hv. apply Qeq_bool_iff in Hv. rewrite Hv. reflexivity.
  - intros ->. reflexivity.
  - destruct x as [v|]; cbn; [|reflexivity].
    destruct (Qeq_bool v 0) eqn:E; [|reflexivity].
    apply Qeq_bool_iff in E. symmetry. exact E.
Qed.

(** X14: the fallback [|| 180] treats an extension angle of exactly 0
    like a missing one: both the knee animation and the chart then receive
    180; any other extension angle is passed on unchanged.  For flexion,
    whose fallback is 0, the value passed on always equals the reported
    one (0 when missing), and with no snapshot at all the knee animation
    receives flexion 0 and extension 180. *)
Theorem zero_extension_is_shown_as_180 (m : Metrics) (index : nat) :
  (forall x, extension_angle m = Some x -> x == 0 ->
             extensionAngle (kneeProps (Some m)) = 180 /\
             MetricsCharts.extension (MetricsCharts.point m index) = 180) /\
  (forall x, extension_angle m = Some x -> ~ x == 0 ->
             extensionAngle (kneeProps (Some m)) = x /\
             MetricsCharts.extension (MetricsCharts.point m index) = x) /\
  (extension_angle m = None ->
   extensionAngle (kneeProps (Some m)) = 180 /\
   MetricsCharts.extension (MetricsCharts.point m index) = 180) /\
  flexionAngle (kneeProps (Some m)) == flexion_angle m ?? 0 /\
  MetricsCharts.flexion (MetricsCharts.point m index) == flexion_angle m ?? 0 /\
  kneeProps None
  = {| flexionAngle := 0; extensionAngle := 180; maxFlexion := 0; maxExtension := 180 |}.
Proof.
  destruct (num_or_cases (extension_angle m) 180) as (Hnz & Hz & Hn & _).
  destruct (num_or_cases (flexion_angle m) 0) as (_ & _ & _ & Hf).
  split; [|split; [|split; [|split; [|split]]]].
  - intros x Hx H0. split; apply (Hz x Hx H0).
  - intros x Hx H0. split; apply (Hnz x Hx H0).
  - intros Hx. split; apply (Hn Hx).
  - exact Hf.
  - exact Hf.
  - reflexivity.
Qed.

Lemma zero_extension_is_shown_as_180_witness :
  let m := {| flexion_angle := Some 180; extension_angle := Some 0;
              muscle_voltage := None; muscle_relative := None; torque := None;
              max_flexion := None; max_extension := None; max_torque := None;
              imu := None; raw_imu := None; muscle_rest_voltage := None;
              muscle_peak_voltage := None; timestamp := None |} in
  extensionAngle (kneeProps (Some m)) = 180 /\
  MetricsCharts.extension (MetricsCharts.point m 0) = 180.
Proof.
  intros m.
  apply (proj1 (zero_extension_is_shown_as_180 m 0) 0); reflexivity.
Defined.

(** ** The charts *)

Lemma map_index_length {A B : Type} (f : A -> nat -> B) (i : nat) (xs : list A) :
  List.length (MetricsCharts.map_index f i xs) = List.length xs.
Proof.
  revert i. induction xs as [|x xs IH]; intros i; cbn; [reflexivity|].
  rewrite IH. reflexivity.
Qed.

Lemma chart_times (i : nat) (h : list Metrics) :
  map MetricsCharts.time (MetricsCharts.map_index MetricsCharts.point i h)
  = seq i (List.length h).
Proof.
  revert i. induction h as [|m h IH]; intros i; cbn; [reflexivity|].
  rewrite IH. reflexivity.
Qed.

Lemma chart_point_source (i : nat) (h : list Metrics) (pt : MetricsCharts.Point) :
  In pt (MetricsCharts.map_index MetricsCharts.point i h) ->
  exists item, In item h /\
               MetricsCharts.muscleRelative pt = num_or (muscle_relative item) 0.
Proof.
  revert i. induction h as [|m h IH]; intros i; cbn; [intros []|].
  intros [<- | Hin].
  - exists m. split; [left; reflexivity | reflexivity].
  - destruct (IH _ Hin) as (item & Hitem & Heq).
    exists item. split; [right; exact Hitem | exact Heq].
Qed.

(** X15: the charts plot one point per retained snapshot, so never more
    than 100 in a reachable state, with the x coordinates 0, 1, ... in
    order (positions in the window, not arrival counts); the "No data yet"
    text is shown exactly when the history is empty, as after an answered
    reset; and no plotted relative activation lies above the displayed
    relative peak. *)
Theorem chart_follows_history (es : list Event) (b : Backend) :
  let h := history (run mounted es) in
  List.length (MetricsCharts.chartData h) = List.length h /\
  (List.length (MetricsCharts.chartData h) <= 100)%nat /\
  map MetricsCharts.time (MetricsCharts.chartData h) = seq 0 (List.length h) /\
  (MetricsCharts.emptyState h = true <-> h = []) /\
  (reset_reply b <> Rejected ->
   MetricsCharts.emptyState (history (resetSession b (run mounted es))) = true) /\
  (forall peak_value pt,
      relativePeak h = Finite peak_value ->
      In pt (MetricsCharts.chartData h) ->
      MetricsCharts.muscleRelative pt <= peak_value).
Proof.
  intros h.
  assert (Hlen : List.length (MetricsCharts.chartData h) = List.length h)
    by apply map_index_length.
  split; [exact Hlen|]. split.
  { rewrite Hlen. unfold h.
    apply (run_invariant (fun s => (List.length (history s) <= 100)%nat));
      [cbn; lia | apply history_length_handle]. }
  split; [apply chart_times|]. split.
  { unfold MetricsCharts.emptyState. rewrite Hlen, Nat.eqb_eq.
    destruct h; cbn; split; try reflexivity; discriminate. }
  split.
  { intros Hb. rewrite resetSession_unfold.
    destruct (reset_reply b); [contradiction Hb; reflexivity | reflexivity]. }
  intros peak_value pt Hpeak Hin.
  destruct (chart_point_source 0 h pt Hin) as (item & Hitem & ->).
  destruct (num_or_cases (muscle_relative item) 0) as (_ & _ & _ & ->).
  destruct h as [|e h']; [contradiction Hitem|].
  set (f := fun entry : Metrics => muscle_relative entry ?? 0) in *.
  destruct (Math_max_nonempty (f e) (map f h')) as (m & Hmax & Hall & _).
  change (relativePeak (e :: h')) with (Math_max (f e :: map f h')) in Hpeak.
  rewrite Hmax in Hpeak. injection Hpeak as <-.
  apply (Hall (f item)).
  change (In (f item) (map f (e :: h'))). apply in_map. exact Hitem.
Qed.

Lemma chart_follows_history_witness :
  MetricsCharts.emptyState
    (history (resetSession backend_ok (run mounted (map ws_message (ticks 0 3)))))
  = true.
Proof.
  apply (proj1 (proj2 (proj2 (proj2 (proj2
           (chart_follows_history (map ws_message (ticks 0 3)) backend_ok)))))).
  discriminate.
Defined.

(** ** The toast and its timer *)

Lemma NoDup_map_filter {A B : Type} (f : A -> B) (g : A -> bool) (l : list A) :
  NoDup (map f l) -> NoDup (map f (filter g l)).
Proof.
  induction l as [|x l IH]; cbn; intros H; [constructor|].
  inversion H as [|? ? Hnotin Hnodup]; subst.
  destruct (g x); cbn; [|apply IH; exact Hnodup].
  constructor; [|apply IH; exact Hnodup].
  intros Hin. apply Hnotin.
  apply in_map_iff in Hin. destruct Hin as (y & Hy & Hin).
  apply filter_In in Hin. apply in_map_iff. exists y. tauto.
Qed.

Lemma same_id_same_timer (l : list Timer) (t t' : Timer) :
  NoDup (map timer_id l) -> In t l -> In t' l ->
  timer_id t = timer_id t' -> t = t'.
Proof.
  induction l as [|x l IH]; cbn; intros Hnd Ht Ht' Hid; [contradiction|].
  inversion Hnd as [|? ? Hnotin Hnodup]; subst.
  destruct Ht as [<- | Ht], Ht' as [<- | Ht'].
  - reflexivity.
  - contradiction Hnotin. rewrite Hid. apply in_map. exact Ht'.
  - contradiction Hnotin. rewrite <- Hid. apply in_map. exact Ht.
  - apply IH; assumption.
Qed.

Lemma fresh_id_not_used (n : nat) (l : list Timer) :
  Forall (fun t => (timer_id t < n)%nat) l -> ~ In n (map timer_id l).
Proof.
  intros H Hin. apply in_map_iff in Hin. destruct Hin as (t & Hid & Ht).
  rewrite Forall_forall in H. specialize (H t Ht). lia.
Qed.

Lemma NoDup_snoc_fresh (l : list Timer) (t : Timer) :
  NoDup (map timer_id l) ->
  Forall (fun t' => (timer_id t' < timer_id t)%nat) l ->
  NoDup (map timer_id (l ++ [t])).
Proof.
  intros Hnd Hfresh. rewrite map_app. cbn.
  apply NoDup_app;
    [exact Hnd | constructor; [intros [] | constructor] |].
  intros x Hx [<- | []]. exact (fresh_id_not_used _ _ Hfresh Hx).
Qed.

Lemma toast_inv_view (s s' : App) :
  toast_view s' = toast_view s -> toast_inv s -> toast_inv s'.
Proof.
  unfold toast_view, toast_inv, timers_fresh, toast_timers.
  intros [= -> -> -> ->]. exact (fun H => H).
Qed.

Lemma find_some_timer (id : nat) (l : list Timer) (t : Timer) :
  find (fun t' => Nat.eqb (timer_id t') id) l = Some t ->
  In t l /\ timer_id t = id.
Proof.
  intros H. apply find_some in H. rewrite Nat.eqb_eq in H. exact H.
Qed.

Lemma toast_inv_setTimeout_connect (s : App) :
  toast_inv s -> toast_inv (setTimeout cb_connectWebSocket reconnectDelay s).
Proof.
  intros (Hfresh & Hnd & Href & Hmsg).
  split; [apply fresh_setTimeout; exact Hfresh|].
  split; [apply (NoDup_snoc_fresh (timers s)); [exact Hnd | exact Hfresh]|].
  assert (E : toast_timers (setTimeout cb_connectWebSocket reconnectDelay s)
              = toast_timers s).
  { unfold toast_timers, setTimeout. cbn. rewrite filter_app. cbn.
    apply app_nil_r. }
  rewrite E. split; [exact Href | exact Hmsg].
Qed.

Lemma toast_timers_clear_ref (s : App) :
  toast_inv s -> toast_timers (clearToastTimer s) = [].
Proof.
  intros (_ & _ & Href & _).
  unfold clearToastTimer.
  destruct (toastTimeoutRef s) as [id|] eqn:Eref.
  - unfold toast_timers, clearTimeout. cbn.
    destruct (filter _ (filter _ (timers s))) as [|t l] eqn:E; [reflexivity|].
    assert (Hin : In t (t :: l)) by (left; reflexivity).
    rewrite <- E in Hin. apply filter_In in Hin. destruct Hin as [Hin Hcb].
    apply filter_In in Hin. destruct Hin as [Hin Hid].
    assert (Ht : In t (toast_timers s))
      by (unfold toast_timers; apply filter_In; split; assumption).
    destruct (Href t Ht) as [Hr _]. injection Hr as ->.
    rewrite Nat.eqb_refl in Hid. discriminate Hid.
  - destruct (toast_timers s) as [|t l] eqn:E; [reflexivity|].
    destruct (Href t ltac:(left; reflexivity)) as [Hr _]. discriminate Hr.
Qed.

Lemma toast_inv_show_toast (s : App) : toast_inv s -> toast_inv (show_toast s).
Proof.
  intros Hinv.
  pose proof (toast_timers_clear_ref s Hinv) as Hclear.
  destruct Hinv as (Hfresh & Hnd & Href & Hmsg).
  assert (Hfresh1 : timers_fresh (clearToastTimer s)).
  { unfold clearToastTimer. destruct (toastTimeoutRef s);
      [apply fresh_clearTimeout|]; exact Hfresh. }
  assert (Hnd1 : NoDup (map timer_id (timers (clearToastTimer s)))).
  { unfold clearToastTimer. destruct (toastTimeoutRef s); [|exact Hnd].
    cbn. apply NoDup_map_filter. exact Hnd. }
  assert (Hnext : next_timer (clearToastTimer s) = next_timer s).
  { unfold clearToastTimer. destruct (toastTimeoutRef s); reflexivity. }
  set (t := {| timer_id := next_timer s; delay := toastDelay;
               callback := cb_clearToast |}).
  assert (Htimers : timers (show_toast s) = timers (clearToastTimer s) ++ [t]).
  { unfold show_toast, scheduleToastClear, setTimeout. cbn. rewrite Hnext.
    reflexivity. }
  assert (Htoast : toast_timers (show_toast s) = [t]).
  { unfold toast_timers in *. rewrite Htimers, filter_app, Hclear. reflexivity. }
  split.
  { unfold timers_fresh. rewrite Htimers.
    replace (next_timer (show_toast s)) with (S (next_timer s))
      by (unfold show_toast, scheduleToastClear, setTimeout; cbn; rewrite Hnext; reflexivity).
    apply Forall_app. split.
    - unfold timers_fresh in Hfresh1. rewrite Hnext in Hfresh1.
      eapply Forall_impl; [|exact Hfresh1]. cbn. intros; lia.
    - constructor; [cbn; lia | constructor]. }
  split.
  { rewrite Htimers. apply NoDup_snoc_fresh; [exact Hnd1|].
    unfold timers_fresh in Hfresh1. rewrite Hnext in Hfresh1. exact Hfresh1. }
  rewrite Htoast. split.
  - intros t' [<- | []]. split; [|reflexivity].
    unfold show_toast, scheduleToastClear. cbn. rewrite Hnext. reflexivity.
  - discriminate.
Qed.

Lemma handleModalConfirm_toast_view (b : Backend) (s : App) :
  toast_view (handleModalConfirm b s) = toast_view s \/
  toast_view (handleModalConfirm b s) = toast_view (show_toast s).
Proof.
  unfold handleModalConfirm, try_catch, bind, calibrateMuscleStep, calibrateImu, bind.
  destruct (calibrationStep s); cbn; try (left; reflexivity).
  - destruct (muscle_calibrate_reply b mode_rest) as [|[|] [result|]]; cbn;
      try (left; reflexivity).
    destruct (imu_calibrate_reply b); cbn; left; reflexivity.
  - destruct (muscle_calibrate_reply b mode_max) as [|[|] [result|]]; cbn;
      try (left; reflexivity).
    right. unfold show_toast, clearToastTimer. cbn.
    destruct (toastTimeoutRef s); reflexivity.
Qed.

Lemma toast_inv_fireTimer (id : nat) (s : App) :
  toast_inv s -> toast_inv (fireTimer id s).
Proof.
  intros Hinv. unfold fireTimer.
  destruct (find _ (timers s)) as [t|] eqn:Hfind; [|exact Hinv].
  apply find_some_timer in Hfind. destruct Hfind as [Hin Hid].
  destruct Hinv as (Hfresh & Hnd & Href & Hmsg).
  assert (Hsub : forall t', In t' (toast_timers (clearTimeout id s)) ->
                            In t' (toast_timers s)).
  { unfold toast_timers, clearTimeout. cbn. intros t' H.
    apply filter_In in H. destruct H as [H Hcb].
    apply filter_In in H. apply filter_In. tauto. }
  assert (Hbase : timers_fresh (clearTimeout id s) /\
                  NoDup (map timer_id (timers (clearTimeout id s))) /\
                  (forall t', In t' (toast_timers (clearTimeout id s)) ->
                              toastTimeoutRef s = Some (timer_id t') /\
                              delay t' = toastDelay)).
  { split; [apply fresh_clearTimeout; exact Hfresh|].
    split; [cbn; apply NoDup_map_filter; exact Hnd|].
    intros t' H. apply Href, Hsub, H. }
  destruct Hbase as (Hf' & Hnd' & Href').
  destruct (callback t) eqn:Hcb; cbn [runCallback].
  - (* a reconnect timer: the toast timer, if any, is another one *)
    apply (toast_inv_view (clearTimeout id s)); [reflexivity|].
    split; [exact Hf'|]. split; [exact Hnd'|]. split; [exact Href'|].
    intros Hm. specialize (Hmsg Hm).
    destruct (toast_timers s) as [|t0 l] eqn:E; [contradiction Hmsg; reflexivity|].
    assert (Ht0 : In t0 (toast_timers s)) by (rewrite E; left; reflexivity).
    unfold toast_timers in Ht0. apply filter_In in Ht0. destruct Ht0 as [Ht0 Hcb0].
    assert (Hne : timer_id t0 <> id).
    { intros Heq. assert (t0 = t).
      { apply (same_id_same_timer (timers s)); try assumption. congruence. }
      subst t0. rewrite Hcb in Hcb0. discriminate Hcb0. }
    intros Hnil.
    assert (Hin0 : In t0 (toast_timers (clearTimeout id s))).
    { unfold toast_timers, clearTimeout. cbn.
      apply filter_In. split; [|exact Hcb0].
      apply filter_In. split; [exact Ht0|].
      apply negb_true_iff, Nat.eqb_neq. exact Hne. }
    rewrite Hnil in Hin0. contradiction Hin0.
  - (* the toast timer: the toast goes away *)
    split; [exact Hf'|]. split; [exact Hnd'|]. split; [exact Href'|].
    cbn. intros H. contradiction H. reflexivity.
Qed.

Lemma toast_inv_handle (s : App) (e : Event) :
  toast_inv s -> toast_inv (handle s e).
Proof.
  intros H. destruct e; cbn [handle].
  - apply (toast_inv_view s); [reflexivity | exact H].
  - apply (toast_inv_view s); [|exact H].
    unfold onmessage. destruct (muscle_rest_voltage newData); reflexivity.
  - apply (toast_inv_view s); [reflexivity | exact H].
  - apply toast_inv_setTimeout_connect.
    apply (toast_inv_view s); [reflexivity | exact H].
  - apply toast_inv_fireTimer. exact H.
  - apply (toast_inv_view s); [|exact H].
    rewrite resetSession_unfold. destruct (reset_reply b); reflexivity.
  - apply (toast_inv_view s); [reflexivity | exact H].
  - destruct (modalShown s && negb (isCalibrating s)); [|exact H].
    destruct (handleModalConfirm_toast_view b s) as [E | E].
    + apply (toast_inv_view s); [exact E | exact H].
    + apply (toast_inv_view (show_toast s)); [exact E|].
      apply toast_inv_show_toast. exact H.
  - destruct (modalShown s); [|exact H].
    apply (toast_inv_view s); [reflexivity | exact H].
  - apply (toast_inv_view s); [reflexivity | exact H].
Qed.

Lemma toast_inv_reachable (es : list Event) : toast_inv (run mounted es).
Proof.
  apply (run_invariant toast_inv); [|apply toast_inv_handle].
  split; [constructor|]. split; [constructor|]. split.
  - intros t [].
  - intros H. contradiction H. reflexivity.
Qed.

Lemma one_id_NoDup_short (l : list Timer) (id : nat) :
  NoDup (map timer_id l) ->
  (forall t, In t l -> timer_id t = id) ->
  (List.length l <= 1)%nat.
Proof.
  intros Hnd Hid. destruct l as [|t [|t' l]]; cbn; try lia.
  exfalso. inversion Hnd as [|? ? Hnotin _]; subst. apply Hnotin.
  left. rewrite (Hid t), (Hid t'); [reflexivity | right; left | left]; reflexivity.
Qed.

(** X16: in every reachable state at most one timer that clears the
    toast is pending (a new completion cancels the timer of the previous
    one before scheduling its own), it is the timer [toastTimeoutRef]
    holds, a visible toast always has one, and when it fires the toast
    disappears. *)
Theorem toast_has_one_timer (es : list Event) :
  let s := run mounted es in
  (List.length (toast_timers s) <= 1)%nat /\
  (forall t, In t (toast_timers s) ->
             toastTimeoutRef s = Some (timer_id t) /\
             delay t = 3000%Z /\
             toastMessage (handle s (timer_fires (timer_id t))) = None) /\
  (toastMessage s <> None -> List.length (toast_timers s) = 1%nat).
Proof.
  intros s.
  destruct (toast_inv_reachable es) as (Hfresh & Hnd & Href & Hmsg).
  fold s in Hfresh, Hnd, Href, Hmsg.
  assert (Hshort : (List.length (toast_timers s) <= 1)%nat).
  { destruct (toastTimeoutRef s) as [id|] eqn:Eref.
    - apply (one_id_NoDup_short _ id).
      + unfold toast_timers. apply NoDup_map_filter. exact Hnd.
      + intros t Ht. destruct (Href t Ht) as [Hr _]. congruence.
    - destruct (toast_timers s) as [|t l] eqn:E; [cbn; lia|].
      destruct (Href t ltac:(left; reflexivity)) as [Hr _]. discriminate Hr. }
  split; [exact Hshort|]. split.
  - intros t Ht. destruct (Href t Ht) as [Hr Hd].
    split; [exact Hr|]. split; [exact Hd|].
    unfold toast_timers in Ht. apply filter_In in Ht. destruct Ht as [Hin Hcb].
    cbn [handle]. unfold fireTimer.
    destruct (find _ (timers s)) as [t'|] eqn:Hfind.
    + apply find_some_timer in Hfind. destruct Hfind as [Hin' Hid'].
      assert (t' = t) by (apply (same_id_same_timer (timers s)); assumption).
      subst t'. destruct (callback t); [discriminate Hcb | reflexivity].
    + exfalso. apply (find_none _ _ Hfind) in Hin.
      rewrite Nat.eqb_refl in Hin. discriminate Hin.
  - intros Hm. specialize (Hmsg Hm).
    destruct (toast_timers s) as [|t [|t' l]]; cbn in *;
      [contradiction Hmsg; reflexivity | reflexivity | lia].
Qed.

Lemma toast_has_one_timer_witness :
  let es := [click_initialize; click_confirm backend_ok; click_confirm backend_ok] in
  let t := {| timer_id := 1; delay := 3000; callback := cb_clearToast |} in
  In t (toast_timers (run mounted es)) /\
  toastMessage (handle (run mounted es) (timer_fires (timer_id t))) = None.
Proof.
  intros es t.
  assert (Hin : In t (toast_timers (run mounted es))) by (vm_compute; left; reflexivity).
  split; [exact Hin|].
  exact (proj2 (proj2 (proj1 (proj2 (toast_has_one_timer es)) t Hin))).
Defined.

(** ** The calibration range card *)

Lemma truthy_iff (x : option Q) :
  truthy x = true <-> exists v, x = Some v /\ ~ v == 0.
Proof.
  unfold truthy. destruct x as [v|].
  - rewrite negb_true_iff. split.
    + intros H. exists v. split; [reflexivity|].
      intros Hv. apply Qeq_bool_iff in Hv. congruence.
    + intros (v' & [= <-] & Hv).
      destruct (Qeq_bool v 0) eqn:E; [|reflexivity].
      apply Qeq_bool_iff in E. contradiction.
  - split; [discriminate | intros (v & H & _); discriminate H].
Qed.

(** X17: the calibration range card shows the two voltages exactly when
    both are present and different from 0, so a rest voltage of exactly
    0 V leaves the prompt "Calibrate to set ranges" in place; after an
    answered reset the prompt is shown, and the next message that carries
    two non-zero voltages brings the range back. *)
Theorem range_card_shown (r : MuscleRange) (b : Backend) (s : App) (m : Metrics) :
  (rangeShown r = true
   <-> exists a p, rest r = Some a /\ peak r = Some p /\ ~ a == 0 /\ ~ p == 0) /\
  (forall p, rangeShown {| rest := Some 0; peak := p |} = false) /\
  (reset_reply b <> Rejected ->
   rangeShown (muscleRange (resetSession b s)) = false /\
   (forall a p, muscle_rest_voltage m = Some (Some a) ->
                muscle_peak_voltage m = Some p ->
                ~ a == 0 -> ~ p == 0 ->
                rangeShown (muscleRange (onmessage m (resetSession b s))) = true)).
Proof.
  split; [|split].
  - unfold rangeShown. rewrite andb_true_iff, !truthy_iff. split.
    + intros [(a & Ha & Ha0) (p & Hp & Hp0)]. exists a, p. tauto.
    + intros (a & p & Ha & Hp & Ha0 & Hp0).
      split; [exists a | exists p]; tauto.
  - intros p. reflexivity.
  - intros Hb. split.
    + rewrite resetSession_unfold.
      destruct (reset_reply b); [contradiction Hb; reflexivity | reflexivity].
    + intros a p Ha Hp Ha0 Hp0.
      destruct (muscleRange_onmessage m (resetSession b s)) as [-> _].
      unfold range_of. rewrite Ha, Hp.
      unfold rangeShown. apply andb_true_iff.
      split; apply truthy_iff; [exists a | exists p]; tauto.
Qed.

Lemma range_card_shown_witness :
  rangeShown (muscleRange calibrated) = true /\
  rangeShown (muscleRange (resetSession backend_ok calibrated)) = false.
Proof.
  destruct (range_card_shown (muscleRange calibrated) backend_ok calibrated (tick 0))
    as (Hiff & _ & Hreset).
  split.
  - apply Hiff. exists 1, 3. repeat split; discriminate.
  - apply Hreset. discriminate.
Defined.

(** ** The connection flag and the sockets *)

Lemma connection_handle (s : App) (e : Event) :
  isConnected (handle s e)
  = match e with
    | ws_open => true
    | ws_error | ws_close => false
    | _ => isConnected s
    end.
Proof.
  destruct e; cbn [handle]; try reflexivity.
  - unfold onmessage. destruct (muscle_rest_voltage newData); reflexivity.
  - unfold fireTimer. destruct (find _ (timers s)) as [t|]; [|reflexivity].
    destruct (callback t); reflexivity.
  - rewrite resetSession_unfold. destruct (reset_reply b); reflexivity.
  - destruct (modalShown s && negb (isCalibrating s)); [|reflexivity].
    apply handleModalConfirm_frame.
  - destruct (modalShown s); reflexivity.
Qed.

Lemma connection_kept (es : list Event) (s : App) :
  forallb (fun e => negb (socket_event e)) es = true ->
  isConnected (run s es) = isConnected s.
Proof.
  revert s. induction es as [|e es IH]; intros s H; [reflexivity|].
  cbn in H. apply andb_true_iff in H. destruct H as [He Hes].
  cbn [run fold_left]. fold (run (handle s e) es).
  rewrite IH by exact Hes. rewrite connection_handle.
  destruct e; try reflexivity; discriminate He.
Qed.

(** X18: the connection indicator is decided by the most recent socket
    event alone: connected after an open, disconnected after an error or a
    close, and disconnected while no socket event has happened; resets,
    messages, clicks and timers (a reconnect attempt included) never
    change it. *)
Theorem connection_flag_follows_last_socket_event (es later : list Event) :
  forallb (fun e => negb (socket_event e)) later = true ->
  isConnected (run mounted later) = false /\
  isConnected (run mounted (es ++ ws_open :: later)) = true /\
  isConnected (run mounted (es ++ ws_error :: later)) = false /\
  isConnected (run mounted (es ++ ws_close :: later)) = false.
Proof.
  intros H.
  split; [rewrite connection_kept by exact H; reflexivity|].
  repeat split; rewrite run_app; cbn [run fold_left];
    match goal with
    | |- isConnected (fold_left handle later ?s0) = _ =>
        change (fold_left handle later s0) with (run s0 later)
    end;
    rewrite connection_kept by exact H; apply connection_handle.
Qed.

Lemma connection_flag_follows_last_socket_event_witness :
  isConnected (run mounted ([ws_close; timer_fires 1]
                            ++ ws_open :: [ws_message (tick 0); click_initialize]))
  = true.
Proof.
  apply (proj1 (proj2 (connection_flag_follows_last_socket_event
                         [ws_close; timer_fires 1]
                         [ws_message (tick 0); click_initialize] eq_refl))).
Defined.

(** ** Reconnects are neither lost nor duplicated *)

Lemma filter_filter_same {A : Type} (f g : A -> bool) (l : list A) :
  (forall x, In x l -> f x = true -> g x = true) ->
  filter f (filter g l) = filter f l.
Proof.
  induction l as [|x l IH]; cbn; intros H; [reflexivity|].
  assert (IH' : filter f (filter g l) = filter f l)
    by (apply IH; intros y Hy; apply H; right; exact Hy).
  destruct (f x) eqn:Hf.
  - rewrite (H x (or_introl eq_refl) Hf). cbn. rewrite Hf, IH'. reflexivity.
  - destruct (g x); cbn; [rewrite Hf|]; exact IH'.
Qed.

(** Clearing an identifier that no reconnect timer has keeps them all. *)
Lemma connect_timers_clear_other (id : nat) (s : App) :
  (forall t, In t (connect_timers s) -> timer_id t <> id) ->
  connect_timers (clearTimeout id s) = connect_timers s.
Proof.
  intros H. unfold connect_timers, clearTimeout. cbn.
  apply filter_filter_same. intros t Ht Hcb.
  apply negb_true_iff, Nat.eqb_neq. apply H.
  unfold connect_timers. apply filter_In. split; assumption.
Qed.

(** Clearing the identifier of a reconnect timer removes exactly it. *)
Lemma connect_timers_clear_one (l : list Timer) (t : Timer) :
  NoDup (map timer_id l) -> In t l -> callback t = cb_connectWebSocket ->
  S (List.length
       (filter (fun t' => match callback t' with cb_connectWebSocket => true | _ => false end)
          (filter (fun t' => negb (Nat.eqb (timer_id t') (timer_id t))) l)))
  = List.length
      (filter (fun t' => match callback t' with cb_connectWebSocket => true | _ => false end) l).
Proof.
  induction l as [|x l IH]; cbn [In]; intros Hnd Hin Hcb; [contradiction|].
  inversion Hnd as [|? ? Hnotin Hnodup]; subst.
  destruct Hin as [-> | Hin].
  - cbn [filter]. rewrite Nat.eqb_refl. cbn [negb]. rewrite Hcb. cbn [List.length].
    f_equal. f_equal. rewrite filter_filter_same; [reflexivity|].
    intros y Hy _. apply negb_true_iff, Nat.eqb_neq. intros Heq.
    apply Hnotin. rewrite <- Heq. apply in_map. exact Hy.
  - assert (Hne : timer_id x <> timer_id t).
    { intros Heq. apply Hnotin. rewrite Heq. apply in_map. exact Hin. }
    cbn [filter]. apply Nat.eqb_neq in Hne. rewrite Hne. cbn [negb filter].
    destruct (callback x); cbn [List.length]; rewrite <- (IH Hnodup Hin Hcb);
      reflexivity.
Qed.

Lemma retry_inv_same (n : nat) (s s' : App) :
  toast_view s' = toast_view s -> sockets s' = sockets s ->
  retry_inv n s -> retry_inv n s'.
Proof.
  unfold toast_view, retry_inv, timers_fresh, connect_timers.
  intros [= -> -> -> _] ->. exact (fun H => H).
Qed.

Lemma retry_inv_onclose (n : nat) (s : App) :
  retry_inv n s -> retry_inv (S n) (onclose s).
Proof.
  intros (Hfresh & Hnd & Hrefnext & Hrefconn & Hcount).
  assert (Hct : connect_timers (onclose s)
                = connect_timers s
                  ++ [{| timer_id := next_timer s; delay := reconnectDelay;
                         callback := cb_connectWebSocket |}]).
  { unfold connect_timers, onclose, setTimeout. cbn. rewrite filter_app. reflexivity. }
  split; [apply (fresh_setTimeout cb_connectWebSocket reconnectDelay (setIsConnected false s));
          exact Hfresh|].
  split; [apply (NoDup_snoc_fresh (timers s)); [exact Hnd | exact Hfresh]|].
  split; [intros id Hid; specialize (Hrefnext id Hid); cbn; lia|].
  split.
  - intros t Ht. rewrite Hct in Ht. apply in_app_or in Ht.
    destruct Ht as [Ht | [<- | []]].
    + apply Hrefconn. exact Ht.
    + cbn. intros Href. specialize (Hrefnext _ Href). lia.
  - rewrite Hct, length_app. cbn [List.length].
    change (sockets (onclose s)) with (sockets s). lia.
Qed.

Lemma retry_inv_fireTimer (n : nat) (id : nat) (s : App) :
  retry_inv n s -> retry_inv n (fireTimer id s).
Proof.
  intros Hinv. pose proof Hinv as (Hfresh & Hnd & Hrefnext & Hrefconn & Hcount).
  unfold fireTimer.
  destruct (find _ (timers s)) as [t|] eqn:Hfind; [|exact Hinv].
  apply find_some_timer in Hfind. destruct Hfind as [Hin Hid]. subst id.
  assert (Hsub : forall t', In t' (connect_timers (clearTimeout (timer_id t) s)) ->
                            In t' (connect_timers s)).
  { unfold connect_timers, clearTimeout. cbn. intros t' H.
    apply filter_In in H. destruct H as [H Hcb].
    apply filter_In in H. apply filter_In. tauto. }
  assert (Hf' : timers_fresh (clearTimeout (timer_id t) s))
    by (apply fresh_clearTimeout; exact Hfresh).
  assert (Hnd' : NoDup (map timer_id (timers (clearTimeout (timer_id t) s))))
    by (cbn; apply NoDup_map_filter; exact Hnd).
  destruct (callback t) eqn:Hcb; cbn [runCallback].
  - (* a reconnect timer becomes a socket *)
    pose proof (connect_timers_clear_one (timers s) t Hnd Hin Hcb) as Hone.
    fold (connect_timers s) in Hone.
    split; [exact Hf'|]. split; [exact Hnd'|].
    split; [exact Hrefnext|].
    split; [intros t' Ht'; apply Hrefconn, Hsub, Ht'|].
    change (sockets (connectWebSocket (clearTimeout (timer_id t) s)))
      with (S (sockets s)).
    change (connect_timers (connectWebSocket (clearTimeout (timer_id t) s)))
      with (connect_timers (clearTimeout (timer_id t) s)).
    unfold connect_timers at 1. unfold clearTimeout. cbn [timers set_timers].
    lia.
  - (* the toast timer: the reconnect timers stay *)
    assert (Hsame : connect_timers (clearTimeout (timer_id t) s) = connect_timers s).
    { apply connect_timers_clear_other. intros t' Ht' Heq.
      unfold connect_timers in Ht'. apply filter_In in Ht'. destruct Ht' as [Ht' Hcb'].
      assert (t' = t) by (apply (same_id_same_timer (timers s)); assumption).
      subst t'. rewrite Hcb in Hcb'. discriminate Hcb'. }
    split; [exact Hf'|]. split; [exact Hnd'|].
    split; [exact Hrefnext|].
    split; [intros t' Ht'; apply Hrefconn, Hsub, Ht'|].
    change (sockets (setToastMessage None (clearTimeout (timer_id t) s)))
      with (sockets s).
    change (connect_timers (setToastMessage None (clearTimeout (timer_id t) s)))
      with (connect_timers (clearTimeout (timer_id t) s)).
    rewrite Hsame. exact Hcount.
Qed.

Lemma retry_inv_show_toast (n : nat) (s : App) :
  retry_inv n s -> retry_inv n (show_toast s).
Proof.
  intros (Hfresh & Hnd & Hrefnext & Hrefconn & Hcount).
  assert (Hclear : timers_fresh (clearToastTimer s) /\
                   NoDup (map timer_id (timers (clearToastTimer s))) /\
                   next_timer (clearToastTimer s) = next_timer s /\
                   connect_timers (clearToastTimer s) = connect_timers s).
  { unfold clearToastTimer. destruct (toastTimeoutRef s) as [id|] eqn:Eref.
    - split; [apply fresh_clearTimeout; exact Hfresh|].
      split; [cbn; apply NoDup_map_filter; exact Hnd|].
      split; [reflexivity|].
      apply connect_timers_clear_other. intros t Ht Heq.
      apply (Hrefconn t Ht). rewrite Heq. reflexivity.
    - repeat split; assumption. }
  destruct Hclear as (Hf1 & Hnd1 & Hnext & Hct1).
  set (t := {| timer_id := next_timer s; delay := toastDelay;
               callback := cb_clearToast |}).
  assert (Htimers : timers (show_toast s) = timers (clearToastTimer s) ++ [t]).
  { unfold show_toast, scheduleToastClear, setTimeout. cbn. rewrite Hnext.
    reflexivity. }
  assert (Hnext' : next_timer (show_toast s) = S (next_timer s)).
  { unfold show_toast, scheduleToastClear, setTimeout. cbn. rewrite Hnext.
    reflexivity. }
  assert (Href' : toastTimeoutRef (show_toast s) = Some (next_timer s)).
  { unfold show_toast, scheduleToastClear. cbn. rewrite Hnext. reflexivity. }
  assert (Hct : connect_timers (show_toast s) = connect_timers s).
  { unfold connect_timers in *. rewrite Htimers, filter_app. cbn.
    rewrite app_nil_r. exact Hct1. }
  unfold timers_fresh in Hf1. rewrite Hnext in Hf1.
  split.
  { unfold timers_fresh. rewrite Htimers, Hnext'.
    apply Forall_app. split.
    - eapply Forall_impl; [|exact Hf1]. cbn. intros; lia.
    - constructor; [cbn; lia | constructor]. }
  split; [rewrite Htimers; apply NoDup_snoc_fresh; assumption|].
  split; [intros id; rewrite Href', Hnext'; intros [= <-]; lia|].
  split.
  - intros t' Ht'. rewrite Hct in Ht'. rewrite Href'. intros [= Heq].
    unfold connect_timers in Ht'. apply filter_In in Ht'. destruct Ht' as [Ht' _].
    unfold timers_fresh in Hfresh. rewrite Forall_forall in Hfresh.
    specialize (Hfresh t' Ht'). lia.
  - rewrite Hct.
    replace (sockets (show_toast s)) with (sockets s); [exact Hcount|].
    unfold show_toast, scheduleToastClear, setTimeout, clearToastTimer.
    destruct (toastTimeoutRef s); reflexivity.
Qed.

Lemma retry_inv_handle (n : nat) (s : App) (e : Event) :
  retry_inv n s ->
  retry_inv (match e with ws_close => S n | _ => n end) (handle s e).
Proof.
  intros H. destruct e; cbn [handle].
  - apply (retry_inv_same n s); [reflexivity | reflexivity | exact H].
  - apply (retry_inv_same n s); [| |exact H];
      unfold onmessage; destruct (muscle_rest_voltage newData); reflexivity.
  - apply (retry_inv_same n s); [reflexivity | reflexivity | exact H].
  - apply retry_inv_onclose. exact H.
  - apply retry_inv_fireTimer. exact H.
  - apply (retry_inv_same n s); [| |exact H];
      rewrite resetSession_unfold; destruct (reset_reply b); reflexivity.
  - apply (retry_inv_same n s); [reflexivity | reflexivity | exact H].
  - destruct (modalShown s && negb (isCalibrating s)); [|exact H].
    assert (Hs : sockets (handleModalConfirm b s) = sockets s)
      by apply handleModalConfirm_frame.
    destruct (handleModalConfirm_toast_view b s) as [E | E].
    + apply (retry_inv_same n s); [exact E | exact Hs | exact H].
    + apply (retry_inv_same n (show_toast s)); [exact E | |].
      * rewrite Hs. unfold show_toast, scheduleToastClear, setTimeout, clearToastTimer.
        destruct (toastTimeoutRef s); reflexivity.
      * apply retry_inv_show_toast. exact H.
  - destruct (modalShown s); [|exact H].
    apply (retry_inv_same n s); [reflexivity | reflexivity | exact H].
  - apply (retry_inv_same n s); [reflexivity | reflexivity | exact H].
Qed.

Lemma retry_inv_run (es : list Event) (n : nat) (s : App) :
  retry_inv n s -> retry_inv (n + closes es) (run s es).
Proof.
  revert n s. induction es as [|e es IH]; intros n s H.
  - cbn. rewrite Nat.add_0_r. exact H.
  - cbn [run fold_left]. fold (run (handle s e) es).
    pose proof (IH _ _ (retry_inv_handle n s e H)) as H'.
    unfold closes in *. cbn [filter].
    destruct e; cbn [List.length]; try exact H'.
    rewrite Nat.add_succ_r. exact H'.
Qed.

(** X19: reconnects are neither lost nor duplicated.  In every reachable
    state the number of sockets constructed plus the number of reconnect
    timers still pending is one more than the number of closes so far, and
    the timer identifier kept for the toast is never that of a pending
    reconnect timer, so cancelling the toast timer never cancels a
    reconnect. *)
Theorem reconnects_are_conserved (es : list Event) :
  let s := run mounted es in
  (sockets s + List.length (connect_timers s) = 1 + closes es)%nat /\
  (forall t, In t (connect_timers s) -> toastTimeoutRef s <> Some (timer_id t)) /\
  connect_timers (clearToastTimer s) = connect_timers s.
Proof.
  intros s.
  assert (H0 : retry_inv 0 mounted).
  { split; [constructor|]. split; [constructor|].
    split; [discriminate|]. split; [intros t []|reflexivity]. }
  pose proof (retry_inv_run es 0 mounted H0) as (_ & _ & _ & Hrefconn & Hcount).
  fold s in Hrefconn, Hcount.
  split; [exact Hcount|]. split; [exact Hrefconn|].
  unfold clearToastTimer. destruct (toastTimeoutRef s) as [id|] eqn:Eref; [|reflexivity].
  apply connect_timers_clear_other. intros t Ht Heq.
  apply (Hrefconn t Ht). congruence.
Qed.

Lemma reconnects_are_conserved_witness :
  let es := [ws_close; click_initialize; click_confirm backend_ok;
             click_confirm backend_ok; ws_close; timer_fires 1] in
  (sockets (run mounted es) + List.length (connect_timers (run mounted es))
   = 1 + closes es)%nat /\
  (forall t, In t (connect_timers (run mounted es)) ->
             toastTimeoutRef (run mounted es) <> Some (timer_id t)).
Proof.
  intros es.
  destruct (reconnects_are_conserved es) as (H1 & H2 & _).
  split; [exact H1 | exact H2].
Defined.

(** ** What a confirm asks of the backend *)

(** X20: a confirm in the rest step is decided by the replies to the
    rest capture and to the IMU calibration alone, and a confirm in the
    peak step by the reply to the max capture alone: the peak capture never
    calibrates the IMU and leaves the smoothed orientation as it is.  The
    confirm label names the capture the click makes in the steps rest and
    peak; in the steps ready and done the label reads "Capture Max Squeeze"
    although the click sends nothing. *)
Theorem confirm_requests (b b' : Backend) (s : App) :
  (calibrationStep s = Rest ->
   muscle_calibrate_reply b mode_rest = muscle_calibrate_reply b' mode_rest ->
   imu_calibrate_reply b = imu_calibrate_reply b' ->
   handleModalConfirm b s = handleModalConfirm b' s /\
   confirmLabel s = "Capture Resting Baseline"%string) /\
  (calibrationStep s = Peak ->
   muscle_calibrate_reply b mode_max = muscle_calibrate_reply b' mode_max ->
   handleModalConfirm b s = handleModalConfirm b' s /\
   smoothImu (handleModalConfirm b s) = smoothImu s /\
   confirmLabel s = "Capture Max Squeeze"%string) /\
  (calibrationStep s = Ready \/ calibrationStep s = Done ->
   handleModalConfirm b s = handleModalConfirm b' s /\
   confirmLabel s = "Capture Max Squeeze"%string).
Proof.
  unfold confirmLabel.
  split; [|split].
  - intros Hstep Hm Hi. rewrite Hstep. split; [|reflexivity].
    unfold handleModalConfirm, try_catch, bind, calibrateMuscleStep, calibrateImu, bind.
    rewrite Hstep, Hm, Hi. reflexivity.
  - intros Hstep Hm. rewrite Hstep. split; [|split; [|reflexivity]].
    + unfold handleModalConfirm, try_catch, bind, calibrateMuscleStep, bind.
      rewrite Hstep, Hm. reflexivity.
    + unfold handleModalConfirm, try_catch, bind, calibrateMuscleStep, bind.
      rewrite Hstep.
      destruct (muscle_calibrate_reply b mode_max) as [|[|] [result|]];
        try reflexivity.
      cbn. unfold clearToastTimer. cbn. destruct (toastTimeoutRef s); reflexivity.
  - intros Hstep. unfold handleModalConfirm, try_catch.
    destruct Hstep as [-> | ->]; split; reflexivity.
Qed.

Lemma confirm_requests_witness :
  handleModalConfirm backend_ok awaiting_peak
  = handleModalConfirm
      {| reset_reply := Rejected; imu_calibrate_reply := Rejected;
         muscle_calibrate_reply := muscle_calibrate_reply backend_ok |}
      awaiting_peak.
Proof.
  apply (proj1 (proj2 (confirm_requests backend_ok
                         {| reset_reply := Rejected; imu_calibrate_reply := Rejected;
                            muscle_calibrate_reply := muscle_calibrate_reply backend_ok |}
                         awaiting_peak)));
    reflexivity.
Defined.
